(** * note0: the notes store, the tree materializer and the sync hook

    A shallow embedding of
    - the zustand notes store ([createNote], [updateNote], [deleteNote],
      [moveNote], [buildNoteTree], [addToOfflineQueue],
      [processOfflineQueue], [clearOfflineQueue], [fetchNotes], [reset]),
    - the hierarchy helpers of the notes hook ([getDescendants],
      [canMoveNote]),
    - the sync hook ([sync], [scheduleRetry], [retryFailedSync]) and
      [SYNC_CONFIG].

    Conventions.
    - Store actions run in a small state-and-exception monad [M] over the
      store snapshot [NotesState] and the outside [World] (the remote
      repository seen through its call log, the localStorage mirror, the
      clock and the id generator). Each action runs to completion: an
      [await] is a sequencing point.
    - [number] fields that hold integers are [Z]; tree depth is [nat].
    - A string is held as its UTF-8 bytes.
    - A [parent_id] that is [null] or [undefined] is [None].
    - The recursion of [buildTreeNode] and [getDescendants] is bounded only
      by the call stack; the model takes the stack budget as [fuel] and an
      exhausted budget is the [RangeError] the engine throws.
    - The persist and devtools middleware are outside the model. The
      persist middleware keeps its snapshot under the key that
      [NoteStorage] uses for the notes; [ls_notes] follows only what
      [NoteStorage] writes there.
    - [sync] is the hook's callback for a render that has seen the current
      store snapshot; [syncFrom] takes what the render saw as arguments.
    - The [noteMap] that [buildNoteTree] builds and never reads is left
      out. *)

From stdpp Require Import gmap strings list sorting pretty.
From Stdlib Require Import ZArith.

Local Open Scope Z_scope.
Local Open Scope string_scope.
Local Open Scope list_scope.

(** ** Data model (types/note.ts) *)

Inductive SyncStatus := synced | pending | syncing | error_status | offline.

Inductive NoteViewMode := grid | list_view | tree_view.

Record NoteMetadata := {
  created_by : option string;
  last_modified_by : option string;
  color : option string;
  icon : option string;
  cover_image : option string;
  template_id : option string;
}.

Definition empty_metadata : NoteMetadata :=
  {| created_by := None; last_modified_by := None; color := None;
     icon := None; cover_image := None; template_id := None |}.

Record Note := {
  note_id : string;
  note_title : string;
  note_content : string;
  note_summary : option string;
  note_created_at : string;
  note_updated_at : string;
  note_parent_id : option string;
  note_position : Z;
  note_is_archived : bool;
  note_is_favorite : bool;
  note_tags : list string;
  note_word_count : Z;
  note_character_count : Z;
  note_estimated_read_time : Z;
  note_last_sync_at : option string;
  note_sync_status : SyncStatus;
  note_version : Z;
  note_metadata : NoteMetadata;
}.

#[warnings="-register-all"]
Inductive NoteTree := MkNoteTree {
  tree_id : string;
  tree_title : string;
  tree_parent_id : option string;
  tree_position : Z;
  tree_is_archived : bool;
  tree_children : list NoteTree;
  tree_depth : nat;
  tree_path : list string;
}.

Record CreateNoteInput := {
  cin_title : string;
  cin_content : option string;
  cin_parent_id : option string;
  cin_position : option Z;
  cin_tags : option (list string);
  cin_metadata : option NoteMetadata;
}.

(** An absent key is [None]; [upd_parent_id = Some None] is an explicit
    [null]. *)
Record UpdateNoteInput := {
  upd_id : string;
  upd_title : option string;
  upd_content : option string;
  upd_parent_id : option (option string);
  upd_position : option Z;
  upd_is_archived : option bool;
  upd_is_favorite : option bool;
  upd_tags : option (list string);
  upd_metadata : option NoteMetadata;
}.

Record NotesFilter := {
  flt_search_query : option string;
  flt_tags : option (list string);
  flt_is_archived : option bool;
  flt_is_favorite : option bool;
  flt_parent_id : option (option string);
  flt_sort_by : option string;
  flt_sort_order : option string;
  flt_limit : option Z;
  flt_offset : option Z;
}.

Definition empty_filter : NotesFilter :=
  {| flt_search_query := None; flt_tags := None; flt_is_archived := None;
     flt_is_favorite := None; flt_parent_id := None; flt_sort_by := None;
     flt_sort_order := None; flt_limit := None; flt_offset := None |}.

(** The queue entry: [operation] and [data] of the source travel together
    as one tagged payload. *)
Inductive OperationPayload :=
| op_create (data : CreateNoteInput)
| op_update (data : UpdateNoteInput)
| op_delete (id : string).

Record OfflineOperation := {
  op_id : string;
  op_payload : OperationPayload;
  op_timestamp : string;
}.

#[global] Instance SyncStatus_eq_dec : EqDecision SyncStatus.
Proof. solve_decision. Defined.
#[global] Instance NoteViewMode_eq_dec : EqDecision NoteViewMode.
Proof. solve_decision. Defined.
#[global] Instance NoteMetadata_eq_dec : EqDecision NoteMetadata.
Proof. solve_decision. Defined.
#[global] Instance Note_eq_dec : EqDecision Note.
Proof. solve_decision. Defined.

(** ** The store snapshot (NotesState without its actions) *)

Record NotesState := {
  notes : list Note;
  selectedNoteId : option string;
  loading : bool;
  error : option string;
  searchQuery : string;
  searchResults : list Note;
  filters : NotesFilter;
  noteTree : list NoteTree;
  expandedNotes : gset string;
  syncStatus : SyncStatus;
  isOnline : bool;
  lastSyncAt : option string;
  offlineQueue : list OfflineOperation;
  sidebarCollapsed : bool;
  viewMode : NoteViewMode;
}.

Definition initialState : NotesState :=
  {| notes := []; selectedNoteId := None; loading := false; error := None;
     searchQuery := ""; searchResults := []; filters := empty_filter;
     noteTree := []; expandedNotes := ∅; syncStatus := synced;
     isOnline := true; lastSyncAt := None; offlineQueue := [];
     sidebarCollapsed := false; viewMode := grid |}.

(** Field assignments inside an immer [set] callback. *)
Definition set_notes (v : list Note) (s : NotesState) : NotesState :=
  {| notes := v; selectedNoteId := selectedNoteId s; loading := loading s;
     error := error s; searchQuery := searchQuery s;
     searchResults := searchResults s; filters := filters s;
     noteTree := noteTree s; expandedNotes := expandedNotes s;
     syncStatus := syncStatus s; isOnline := isOnline s;
     lastSyncAt := lastSyncAt s; offlineQueue := offlineQueue s;
     sidebarCollapsed := sidebarCollapsed s; viewMode := viewMode s |}.

Definition set_selectedNoteId (v : option string) (s : NotesState) : NotesState :=
  {| notes := notes s; selectedNoteId := v; loading := loading s;
     error := error s; searchQuery := searchQuery s;
     searchResults := searchResults s; filters := filters s;
     noteTree := noteTree s; expandedNotes := expandedNotes s;
     syncStatus := syncStatus s; isOnline := isOnline s;
     lastSyncAt := lastSyncAt s; offlineQueue := offlineQueue s;
     sidebarCollapsed := sidebarCollapsed s; viewMode := viewMode s |}.

Definition set_loading (v : bool) (s : NotesState) : NotesState :=
  {| notes := notes s; selectedNoteId := selectedNoteId s; loading := v;
     error := error s; searchQuery := searchQuery s;
     searchResults := searchResults s; filters := filters s;
     noteTree := noteTree s; expandedNotes := expandedNotes s;
     syncStatus := syncStatus s; isOnline := isOnline s;
     lastSyncAt := lastSyncAt s; offlineQueue := offlineQueue s;
     sidebarCollapsed := sidebarCollapsed s; viewMode := viewMode s |}.

Definition set_error (v : option string) (s : NotesState) : NotesState :=
  {| notes := notes s; selectedNoteId := selectedNoteId s;
     loading := loading s; error := v; searchQuery := searchQuery s;
     searchResults := searchResults s; filters := filters s;
     noteTree := noteTree s; expandedNotes := expandedNotes s;
     syncStatus := syncStatus s; isOnline := isOnline s;
     lastSyncAt := lastSyncAt s; offlineQueue := offlineQueue s;
     sidebarCollapsed := sidebarCollapsed s; viewMode := viewMode s |}.

Definition set_noteTree (v : list NoteTree) (s : NotesState) : NotesState :=
  {| notes := notes s; selectedNoteId := selectedNoteId s;
     loading := loading s; error := error s; searchQuery := searchQuery s;
     searchResults := searchResults s; filters := filters s;
     noteTree := v; expandedNotes := expandedNotes s;
     syncStatus := syncStatus s; isOnline := isOnline s;
     lastSyncAt := lastSyncAt s; offlineQueue := offlineQueue s;
     sidebarCollapsed := sidebarCollapsed s; viewMode := viewMode s |}.

Definition set_syncStatus (v : SyncStatus) (s : NotesState) : NotesState :=
  {| notes := notes s; selectedNoteId := selectedNoteId s;
     loading := loading s; error := error s; searchQuery := searchQuery s;
     searchResults := searchResults s; filters := filters s;
     noteTree := noteTree s; expandedNotes := expandedNotes s;
     syncStatus := v; isOnline := isOnline s;
     lastSyncAt := lastSyncAt s; offlineQueue := offlineQueue s;
     sidebarCollapsed := sidebarCollapsed s; viewMode := viewMode s |}.

Definition set_lastSyncAt (v : option string) (s : NotesState) : NotesState :=
  {| notes := notes s; selectedNoteId := selectedNoteId s;
     loading := loading s; error := error s; searchQuery := searchQuery s;
     searchResults := searchResults s; filters := filters s;
     noteTree := noteTree s; expandedNotes := expandedNotes s;
     syncStatus := syncStatus s; isOnline := isOnline s;
     lastSyncAt := v; offlineQueue := offlineQueue s;
     sidebarCollapsed := sidebarCollapsed s; viewMode := viewMode s |}.

Definition set_offlineQueue (v : list OfflineOperation) (s : NotesState) : NotesState :=
  {| notes := notes s; selectedNoteId := selectedNoteId s;
     loading := loading s; error := error s; searchQuery := searchQuery s;
     searchResults := searchResults s; filters := filters s;
     noteTree := noteTree s; expandedNotes := expandedNotes s;
     syncStatus := syncStatus s; isOnline := isOnline s;
     lastSyncAt := lastSyncAt s; offlineQueue := v;
     sidebarCollapsed := sidebarCollapsed s; viewMode := viewMode s |}.

(** ** The outside world *)

(** What a rejected promise or a [throw] carries: an [Error] with its
    message, or some other value. *)
Inductive Thrown := ErrorObj (message : string) | OtherValue.

Inductive Outcome (A : Type) := Return (a : A) | Throw (e : Thrown).
Arguments Return {A} a.
Arguments Throw {A} e.

(** [error instanceof Error ? error.message : fallback] *)
Definition messageOr (fallback : string) (e : Thrown) : string :=
  match e with ErrorObj m => m | OtherValue => fallback end.

Inductive RepoCall :=
| CallCheckConnection
| CallGetAll (filter : NotesFilter)
| CallCreate (input : CreateNoteInput)
| CallUpdate (input : UpdateNoteInput)
| CallDelete (id : string).

(** The remote repository ([db.notes] and [utils.checkConnection] of
    lib/supabase.ts) is an external collaborator: each call is answered
    from the history of the calls made before it. *)
Record Repository := {
  db_checkConnection : list RepoCall → bool;
  db_getAll : list RepoCall → NotesFilter → Outcome (list Note);
  db_create : list RepoCall → CreateNoteInput → Outcome Note;
  db_update : list RepoCall → UpdateNoteInput → Outcome Note;
  db_delete : list RepoCall → string → Outcome unit;
}.

(** The localStorage mirror behind [NoteStorage]: a key that was never
    written is [None]; when localStorage is unavailable every write is
    dropped and every read gives the default. *)
Record LocalStorage := {
  ls_available : bool;
  ls_notes : option (list Note);
  ls_offline_queue : option (list OfflineOperation);
  ls_last_sync : option string;
}.

Record World := {
  w_calls : list RepoCall;
  w_storage : LocalStorage;
  w_clock : nat;
  w_entropy : nat;
}.

(** ** The action monad *)

Definition M (A : Type) : Type :=
  World → NotesState → Outcome A * World * NotesState.

Definition ret {A} (a : A) : M A := λ w s, (Return a, w, s).

Definition bind {A B} (m : M A) (k : A → M B) : M B :=
  λ w s, match m w s with
         | (Return a, w', s') => k a w' s'
         | (Throw e, w', s') => (Throw e, w', s')
         end.

Definition throw {A} (e : Thrown) : M A := λ w s, (Throw e, w, s).

(** [try { body } catch (error) { handler }] *)
Definition try_catch {A} (body : M A) (handler : Thrown → M A) : M A :=
  λ w s, match body w s with
         | (Throw e, w', s') => handler e w' s'
         | r => r
         end.

Notation "'do' x <- m ; k" := (bind m (λ x, k))
  (at level 10, x name, m at level 100, k at level 200).
Notation "m ;; k" := (bind m (λ _, k))
  (at level 100, k at level 200, right associativity).

(** [get()] and [set((state) => ...)] of the store. *)
Definition get : M NotesState := λ w s, (Return s, w, s).
Definition set (f : NotesState → NotesState) : M unit :=
  λ w s, (Return tt, w, f s).

Definition when (b : bool) (m : M unit) : M unit := if b then m else ret tt.

Section Store.

(** The environment of one run: the repository, the rendering of the clock
    ([new Date().toISOString()]), the id generator ([generateId] of
    lib/utils.ts) and the call-stack budget. *)
Variable db : Repository.
Variable isoString : nat → string.
Variable randomId : nat → string.
Variable stack : nat.

Definition set_w_calls (v : list RepoCall) (w : World) : World :=
  {| w_calls := v; w_storage := w_storage w; w_clock := w_clock w;
     w_entropy := w_entropy w |}.

Definition set_w_storage (v : LocalStorage) (w : World) : World :=
  {| w_calls := w_calls w; w_storage := v; w_clock := w_clock w;
     w_entropy := w_entropy w |}.

Definition now : M string :=
  λ w s, (Return (isoString (w_clock w)),
          {| w_calls := w_calls w; w_storage := w_storage w;
             w_clock := S (w_clock w); w_entropy := w_entropy w |}, s).

Definition generateId : M string :=
  λ w s, (Return (randomId (w_entropy w)),
          {| w_calls := w_calls w; w_storage := w_storage w;
             w_clock := w_clock w; w_entropy := S (w_entropy w) |}, s).

(** An awaited repository call: it is appended to the call log, and a
    rejection is rethrown at the [await]. *)
Definition await {A} (call : RepoCall) (reply : list RepoCall → Outcome A) : M A :=
  λ w s, (reply (w_calls w), set_w_calls (w_calls w ++ [call]) w, s).

Definition checkConnection : M bool :=
  await CallCheckConnection (λ h, Return (db_checkConnection db h)).
Definition notes_getAll (f : NotesFilter) : M (list Note) :=
  await (CallGetAll f) (λ h, db_getAll db h f).
Definition notes_create (i : CreateNoteInput) : M Note :=
  await (CallCreate i) (λ h, db_create db h i).
Definition notes_update (i : UpdateNoteInput) : M Note :=
  await (CallUpdate i) (λ h, db_update db h i).
Definition notes_delete (id : string) : M unit :=
  await (CallDelete id) (λ h, db_delete db h id).

(** [NoteStorage] (lib/storage.ts): best effort, never throws. *)
Definition storage_write (f : LocalStorage → LocalStorage) : M unit :=
  λ w s, (Return tt,
          if ls_available (w_storage w)
          then set_w_storage (f (w_storage w)) w else w, s).

Definition NoteStorage_setNotes (v : list Note) : M unit :=
  storage_write (λ l, {| ls_available := ls_available l; ls_notes := Some v;
                         ls_offline_queue := ls_offline_queue l;
                         ls_last_sync := ls_last_sync l |}).

Definition NoteStorage_setOfflineQueue (v : list OfflineOperation) : M unit :=
  storage_write (λ l, {| ls_available := ls_available l; ls_notes := ls_notes l;
                         ls_offline_queue := Some v;
                         ls_last_sync := ls_last_sync l |}).

Definition NoteStorage_setLastSync (v : string) : M unit :=
  storage_write (λ l, {| ls_available := ls_available l; ls_notes := ls_notes l;
                         ls_offline_queue := ls_offline_queue l;
                         ls_last_sync := Some v |}).

Definition NoteStorage_getNotes : M (list Note) :=
  λ w s, (Return (if ls_available (w_storage w)
                  then default [] (ls_notes (w_storage w)) else []), w, s).

(** ** The tree materializer ([buildNoteTree] of the store) *)

(** JavaScript truthiness of a [string | null | undefined]. *)
Definition truthy (o : option string) : bool :=
  match o with
  | Some p => negb (String.eqb p "")
  | None => false
  end.

(** [l.sort((a, b) => a.position - b.position)]: Array.prototype.sort is
    stable, so a note goes in front of the first note that does not sort
    before it. *)
Fixpoint insertByPosition (x : Note) (l : list Note) : list Note :=
  match l with
  | [] => [x]
  | y :: l' =>
      if (note_position x <=? note_position y)%Z then x :: y :: l'
      else y :: insertByPosition x l'
  end.

Definition sortByPosition (l : list Note) : list Note :=
  foldr insertByPosition [] l.

Definition childrenOf (notes : list Note) (parent : string) : list Note :=
  filter (λ n, note_parent_id n = Some parent) notes.

Fixpoint buildTreeNode (fuel : nat) (notes : list Note) (note : Note)
    (depth : nat) : option NoteTree :=
  match fuel with
  | O => None
  | S fuel' =>
      children ← mapM (λ child, buildTreeNode fuel' notes child (S depth))
                   (sortByPosition (childrenOf notes (note_id note)));
      Some {| tree_id := note_id note;
              tree_title := note_title note;
              tree_parent_id := note_parent_id note;
              tree_position := note_position note;
              tree_is_archived := note_is_archived note;
              tree_children := children;
              tree_depth := depth;
              tree_path := [] |}
  end.

Definition rootNotes (notes : list Note) : list Note :=
  sortByPosition (filter (λ n, truthy (note_parent_id n) = false) notes).

Definition buildTree (fuel : nat) (notes : list Note) : option (list NoteTree) :=
  mapM (λ note, buildTreeNode fuel notes note 0) (rootNotes notes).

Definition buildNoteTree : M unit :=
  do s <- get;
  match buildTree stack (notes s) with
  | Some tree => set (set_noteTree tree)
  | None => throw (ErrorObj "Maximum call stack size exceeded")
  end.

(** ** The offline queue *)

Definition addToOfflineQueue (operation : OfflineOperation) : M unit :=
  set (λ s, set_offlineQueue (offlineQueue s ++ [operation]) s) ;;
  do s <- get;
  NoteStorage_setOfflineQueue (offlineQueue s).

Definition clearOfflineQueue : M unit :=
  set (set_offlineQueue []) ;;
  NoteStorage_setOfflineQueue [].

(** The [switch] of [processOfflineQueue]. *)
Definition applyOperation (operation : OfflineOperation) : M unit :=
  match op_payload operation with
  | op_create data => notes_create data ;; ret tt
  | op_update data => notes_update data ;; ret tt
  | op_delete id => notes_delete id
  end.

(** The [for ... of] loop: the [catch] logs and [continue]s. *)
Fixpoint forEachOperation (queue : list OfflineOperation) : M unit :=
  match queue with
  | [] => ret tt
  | operation :: rest =>
      try_catch (applyOperation operation) (λ _, ret tt) ;;
      forEachOperation rest
  end.

Definition processOfflineQueue : M unit :=
  do s <- get;
  if decide (length (offlineQueue s) = 0%nat) then ret tt
  else forEachOperation (offlineQueue s) ;; clearOfflineQueue.

(** ** CRUD actions *)

Definition fetchNotes (filter : NotesFilter) : M unit :=
  set (λ s, set_error None (set_loading true s)) ;;
  try_catch
    (do s <- get;
     do fetched <- (if isOnline s
                    then (do fetched <- notes_getAll filter;
                          NoteStorage_setNotes fetched ;; ret fetched)
                    else NoteStorage_getNotes);
     do stamp <- now;
     set (λ s, set_lastSyncAt (Some stamp)
                 (set_loading false (set_notes fetched s))) ;;
     buildNoteTree)
    (λ e,
       set (λ s, set_loading false
                   (set_error (Some (messageOr "Failed to fetch notes" e)) s)) ;;
       do localNotes <- NoteStorage_getNotes;
       set (set_notes localNotes)).

(** [content.length]: the number of UTF-16 code units of a string that is
    held as its UTF-8 bytes. A continuation byte adds nothing; the lead
    byte of a four-byte sequence stands for a surrogate pair. *)
Definition utf16Units (byte : Ascii.ascii) : nat :=
  let code := Ascii.nat_of_ascii byte in
  if (code <? 128)%nat then 1%nat
  else if (code <? 192)%nat then 0%nat
  else if (code <? 240)%nat then 1%nat
  else 2%nat.

Fixpoint utf16Length (text : string) : nat :=
  match text with
  | EmptyString => 0%nat
  | String byte rest => (utf16Units byte + utf16Length rest)%nat
  end.

(** The note synthesized by [createNote] while offline. *)
Definition localNote (id : string) (input : CreateNoteInput)
    (created updated last_sync : string) : Note :=
  {| note_id := id;
     note_title := cin_title input;
     note_content := default "" (cin_content input);
     note_summary := Some "";
     note_created_at := created;
     note_updated_at := updated;
     note_last_sync_at := Some last_sync;
     note_parent_id := if truthy (cin_parent_id input)
                       then cin_parent_id input else None;
     note_position := default 0 (cin_position input);
     note_is_archived := false;
     note_is_favorite := false;
     note_tags := default [] (cin_tags input);
     note_word_count := 0;
     note_character_count :=
       Z.of_nat (utf16Length (default "" (cin_content input)));
     note_estimated_read_time := 1;
     note_sync_status := pending;
     note_version := 1;
     note_metadata := default empty_metadata (cin_metadata input) |}.

Definition createNote (input : CreateNoteInput) : M (option Note) :=
  set (λ s, set_error None (set_loading true s)) ;;
  try_catch
    (do s <- get;
     do newNote <- (if isOnline s then notes_create input
                    else (do id <- generateId;
                          do created <- now;
                          do updated <- now;
                          do last_sync <- now;
                          do opId <- generateId;
                          do stamp <- now;
                          addToOfflineQueue
                            {| op_id := opId; op_payload := op_create input;
                               op_timestamp := stamp |} ;;
                          ret (localNote id input created updated last_sync)));
     set (λ s, set_loading false
                 (set_selectedNoteId (Some (note_id newNote))
                    (set_notes (notes s ++ [newNote]) s))) ;;
     do s' <- get;
     NoteStorage_setNotes (notes s') ;;
     buildNoteTree ;;
     ret (Some newNote))
    (λ e,
       set (λ s, set_loading false
                   (set_error (Some (messageOr "Failed to create note" e)) s)) ;;
       ret None).

(** [{ ...existingNote, ...input, updated_at, sync_status: 'pending' }] *)
Definition mergeUpdate (existing : Note) (input : UpdateNoteInput)
    (updated : string) : Note :=
  {| note_id := upd_id input;
     note_title := default (note_title existing) (upd_title input);
     note_content := default (note_content existing) (upd_content input);
     note_summary := note_summary existing;
     note_created_at := note_created_at existing;
     note_updated_at := updated;
     note_parent_id := default (note_parent_id existing) (upd_parent_id input);
     note_position := default (note_position existing) (upd_position input);
     note_is_archived :=
       default (note_is_archived existing) (upd_is_archived input);
     note_is_favorite :=
       default (note_is_favorite existing) (upd_is_favorite input);
     note_tags := default (note_tags existing) (upd_tags input);
     note_word_count := note_word_count existing;
     note_character_count := note_character_count existing;
     note_estimated_read_time := note_estimated_read_time existing;
     note_last_sync_at := note_last_sync_at existing;
     note_sync_status := pending;
     note_version := note_version existing;
     note_metadata := default (note_metadata existing) (upd_metadata input) |}.

(** [notes.find(n => n.id === id)] with its index ([findIndex]). *)
Definition findNote (id : string) (l : list Note) : option (nat * Note) :=
  list_find (λ n, note_id n = id) l.

Definition updateNote (input : UpdateNoteInput) : M (option Note) :=
  try_catch
    (do s <- get;
     do updatedNote <-
       (if isOnline s then notes_update input
        else match findNote (upd_id input) (notes s) with
             | None => throw (ErrorObj "Note not found")
             | Some (_, existingNote) =>
                 do updated <- now;
                 do opId <- generateId;
                 do stamp <- now;
                 addToOfflineQueue
                   {| op_id := opId; op_payload := op_update input;
                      op_timestamp := stamp |} ;;
                 ret (mergeUpdate existingNote input updated)
             end);
     set (λ s, match findNote (upd_id input) (notes s) with
               | Some (index, _) =>
                   set_notes (<[index := updatedNote]> (notes s)) s
               | None => s
               end) ;;
     do s' <- get;
     NoteStorage_setNotes (notes s') ;;
     ret (Some updatedNote))
    (λ e,
       set (set_error (Some (messageOr "Failed to update note" e))) ;;
       ret None).

Definition deleteNote (id : string) : M bool :=
  try_catch
    (do s <- get;
     (if isOnline s then notes_delete id
      else (do opId <- generateId;
            do stamp <- now;
            addToOfflineQueue
              {| op_id := opId; op_payload := op_delete id;
                 op_timestamp := stamp |})) ;;
     set (λ s, let s1 := set_notes (filter (λ n, note_id n ≠ id) (notes s)) s in
               if decide (selectedNoteId s1 = Some id)
               then set_selectedNoteId None s1 else s1) ;;
     do s' <- get;
     NoteStorage_setNotes (notes s') ;;
     buildNoteTree ;;
     ret true)
    (λ e,
       set (set_error (Some (messageOr "Failed to delete note" e))) ;;
       ret false).

Definition moveInput (noteId : string) (newParentId : option string)
    (newPosition : Z) : UpdateNoteInput :=
  {| upd_id := noteId; upd_title := None; upd_content := None;
     upd_parent_id := Some newParentId; upd_position := Some newPosition;
     upd_is_archived := None; upd_is_favorite := None; upd_tags := None;
     upd_metadata := None |}.

Definition moveNote (noteId : string) (newParentId : option string)
    (newPosition : Z) : M bool :=
  try_catch
    (updateNote (moveInput noteId newParentId newPosition) ;;
     buildNoteTree ;;
     ret true)
    (λ _, ret false).

Definition setSyncStatus (status : SyncStatus) : M unit :=
  set (set_syncStatus status).

Definition reset : M unit :=
  set (λ s,
    {| notes := []; selectedNoteId := None; loading := false; error := None;
       searchQuery := ""; searchResults := []; filters := empty_filter;
       noteTree := []; expandedNotes := ∅; syncStatus := synced;
       isOnline := isOnline s; lastSyncAt := lastSyncAt s;
       offlineQueue := []; sidebarCollapsed := false; viewMode := grid |}).

(** ** Hierarchy helpers of the notes hook ([useNoteHierarchy]) *)

Fixpoint getDescendants (fuel : nat) (notes : list Note) (noteId : string)
    : option (list Note) :=
  match fuel with
  | O => None
  | S fuel' =>
      parts ← mapM (λ child, (λ below, child :: below)
                               <$> getDescendants fuel' notes (note_id child))
                (childrenOf notes noteId);
      Some (concat parts)
  end.

Definition canMoveNote (fuel : nat) (notes : list Note) (noteId : string)
    (targetParentId : option string) : option bool :=
  if decide (Some noteId = targetParentId) then Some false
  else
    descendants ← getDescendants fuel notes noteId;
    Some (negb (existsb (λ d, bool_decide (Some (note_id d) = targetParentId))
                  descendants)).

(** ** The sync hook (lib/hooks/use-sync.ts) *)

(** [SYNC_CONFIG] of lib/constants.ts. *)
Definition SYNC_INTERVAL : Z := 30000.
Definition RETRY_ATTEMPTS : nat := 3.
Definition RETRY_DELAY : Z := 1000.

(** The hook's own state: its [useState] cells and refs. A timer handle is
    the index of its [setTimeout] in [timeouts]; [cleared] logs the
    handles given to [clearTimeout]. *)
Record SyncHook := {
  hook_error : option string;
  syncProgress : Z;
  retryCountRef : nat;
  retryTimeoutRef : option nat;
  timeouts : list Z;
  cleared : list nat;
}.

Definition initialHook : SyncHook :=
  {| hook_error := None; syncProgress := 0; retryCountRef := 0%nat;
     retryTimeoutRef := None; timeouts := []; cleared := [] |}.

(** [SYNC_CONFIG.RETRY_DELAY * Math.pow(2, retryCountRef.current)] *)
Definition backoff (count : nat) : Z := RETRY_DELAY * 2 ^ Z.of_nat count.

Definition scheduleRetry (h : SyncHook) : SyncHook :=
  if decide (RETRY_ATTEMPTS ≤ retryCountRef h)%nat then h
  else
    let delay := backoff (retryCountRef h) in
    {| hook_error := hook_error h; syncProgress := syncProgress h;
       retryCountRef := S (retryCountRef h);
       retryTimeoutRef := Some (length (timeouts h));
       timeouts := timeouts h ++ [delay];
       cleared := cleared h |}.

Definition sync (h : SyncHook) : M SyncHook :=
  do s <- get;
  if negb (isOnline s) then ret h
  else
    try_catch
      (setSyncStatus syncing ;;
       do isConnected <- checkConnection;
       (if negb isConnected
        then throw (ErrorObj "No connection to database") else ret tt) ;;
       do s1 <- get;
       when (bool_decide (0 < length (offlineQueue s1))%nat)
         processOfflineQueue ;;
       fetchNotes empty_filter ;;
       setSyncStatus synced ;;
       do stamp <- now;
       NoteStorage_setLastSync stamp ;;
       ret {| hook_error := None; syncProgress := 100;
              retryCountRef := 0%nat;
              retryTimeoutRef := retryTimeoutRef h;
              timeouts := timeouts h; cleared := cleared h |})
      (λ e,
         setSyncStatus error_status ;;
         ret (scheduleRetry
                {| hook_error := Some (messageOr "Sync failed" e);
                   syncProgress := 0;
                   retryCountRef := retryCountRef h;
                   retryTimeoutRef := retryTimeoutRef h;
                   timeouts := timeouts h; cleared := cleared h |})).

Definition clearRetryTimeout (h : SyncHook) : SyncHook :=
  match retryTimeoutRef h with
  | Some handle =>
      {| hook_error := hook_error h; syncProgress := syncProgress h;
         retryCountRef := retryCountRef h;
         retryTimeoutRef := retryTimeoutRef h;
         timeouts := timeouts h; cleared := cleared h ++ [handle] |}
  | None => h
  end.

Definition resetRetryCount (h : SyncHook) : SyncHook :=
  {| hook_error := hook_error h; syncProgress := syncProgress h;
     retryCountRef := 0%nat; retryTimeoutRef := retryTimeoutRef h;
     timeouts := timeouts h; cleared := cleared h |}.

Definition retryFailedSync (h : SyncHook) : M SyncHook :=
  sync (resetRetryCount (clearRetryTimeout h)).

Definition forceSync (h : SyncHook) : M SyncHook :=
  sync (resetRetryCount h).

(** [n] sync cycles in a row, each started on the hook state the previous
    one left (the retry timer firing, or the periodic one). *)
Fixpoint syncCycles (n : nat) (h : SyncHook) : M SyncHook :=
  match n with
  | O => ret h
  | S n' => do h' <- syncCycles n' h; sync h'
  end.

End Store.

(** ** Test doubles and sample data *)

(** The remote call an operation of the queue is replayed as. *)
Definition callOf (operation : OfflineOperation) : RepoCall :=
  match op_payload operation with
  | op_create data => CallCreate data
  | op_update data => CallUpdate data
  | op_delete id => CallDelete id
  end.

Definition remoteNote (id title : string) (parent : option string)
    (position : Z) : Note :=
  {| note_id := id; note_title := title; note_content := "";
     note_summary := None; note_created_at := "2024-01-01T00:00:00.000Z";
     note_updated_at := "2024-01-01T00:00:00.000Z";
     note_parent_id := parent; note_position := position;
     note_is_archived := false; note_is_favorite := false; note_tags := [];
     note_word_count := 0; note_character_count := 0;
     note_estimated_read_time := 1; note_last_sync_at := None;
     note_sync_status := synced; note_version := 1;
     note_metadata := empty_metadata |}.

(** Whether the repository accepts the call an operation is replayed as,
    given the calls made before it. *)
Definition accepts (db : Repository) (history : list RepoCall)
    (operation : OfflineOperation) : Prop :=
  match op_payload operation with
  | op_create data => ∃ n, db_create db history data = Return n
  | op_update data => ∃ n, db_update db history data = Return n
  | op_delete id => db_delete db history id = Return tt
  end.

(** A repository stub whose calls always succeed. *)
Definition stubRepository : Repository :=
  {| db_checkConnection := λ _, true;
     db_getAll := λ _ _, Return [];
     db_create := λ h i, Return (remoteNote ("remote-" +:+ pretty (length h))
                                   (cin_title i) (cin_parent_id i)
                                   (default 0 (cin_position i)));
     db_update := λ _ i, Return (remoteNote (upd_id i)
                                   (default "" (upd_title i))
                                   (default None (upd_parent_id i))
                                   (default 0 (upd_position i)));
     db_delete := λ _ _, Return tt |}.

(** The same stub, except that the first call it ever receives is
    rejected. *)
Definition rejectFirstRepository : Repository :=
  {| db_checkConnection := db_checkConnection stubRepository;
     db_getAll := db_getAll stubRepository;
     db_create := λ h i, match h with
                         | [] => Throw (ErrorObj "insert rejected")
                         | _ => db_create stubRepository h i
                         end;
     db_update := λ h i, match h with
                         | [] => Throw (ErrorObj "update rejected")
                         | _ => db_update stubRepository h i
                         end;
     db_delete := λ h i, match h with
                         | [] => Throw (ErrorObj "delete rejected")
                         | _ => db_delete stubRepository h i
                         end |}.

(** A backend that cannot be reached. *)
Definition unreachableRepository : Repository :=
  {| db_checkConnection := λ _, false;
     db_getAll := λ _ _, Throw (ErrorObj "Failed to fetch");
     db_create := λ _ _, Throw (ErrorObj "Failed to fetch");
     db_update := λ _ _, Throw (ErrorObj "Failed to fetch");
     db_delete := λ _ _, Throw (ErrorObj "Failed to fetch") |}.

Definition succeedsAlways (db : Repository) : Prop :=
  (∀ h i, ∃ n, db_create db h i = Return n) ∧
  (∀ h i, ∃ n, db_update db h i = Return n) ∧
  (∀ h i, db_delete db h i = Return tt).

Definition sampleClock (tick : nat) : string := "T" +:+ pretty tick.
Definition sampleId (seed : nat) : string := "id-" +:+ pretty seed.

Definition emptyWorld : World :=
  {| w_calls := [];
     w_storage := {| ls_available := true; ls_notes := None;
                     ls_offline_queue := None; ls_last_sync := None |};
     w_clock := 0; w_entropy := 0 |}.

Definition offlineState : NotesState :=
  {| notes := []; selectedNoteId := None; loading := false; error := None;
     searchQuery := ""; searchResults := []; filters := empty_filter;
     noteTree := []; expandedNotes := ∅; syncStatus := synced;
     isOnline := false; lastSyncAt := None; offlineQueue := [];
     sidebarCollapsed := false; viewMode := grid |}.

Definition titled (title : string) (parent : option string) : CreateNoteInput :=
  {| cin_title := title; cin_content := None; cin_parent_id := parent;
     cin_position := None; cin_tags := None; cin_metadata := None |}.

Definition threeOperations : list OfflineOperation :=
  [ {| op_id := "op-1"; op_payload := op_create (titled "N1" None);
       op_timestamp := "T0" |};
    {| op_id := "op-2"; op_payload := op_create (titled "N2" None);
       op_timestamp := "T1" |};
    {| op_id := "op-3"; op_payload := op_delete "N0";
       op_timestamp := "T2" |} ].

Definition note1 : Note := remoteNote "n1" "N1" None 0.
Definition note2 : Note := remoteNote "n2" "N2" (Some "n1") 0.
Definition note3 : Note := remoteNote "n3" "N3" (Some "n2") 1.

(** An offline store holding a chain n1 > n2 > n3, with n2 selected. *)
Definition chainState : NotesState :=
  set_selectedNoteId (Some "n2") (set_notes [note1; note2; note3] offlineState).


(** ** Driving the store with a sequence of mutations *)

Inductive Mutation :=
| Create (input : CreateNoteInput)
| Update (input : UpdateNoteInput)
| Delete (id : string).

Section Driver.

Variable db : Repository.
Variable isoString : nat → string.
Variable randomId : nat → string.
Variable stack : nat.

(** One caller action; what it returns is dropped. *)
Definition issue (m : Mutation) : M unit :=
  match m with
  | Create input => createNote db isoString randomId stack input ;; ret tt
  | Update input => updateNote db isoString randomId input ;; ret tt
  | Delete id => deleteNote db isoString randomId stack id ;; ret tt
  end.

Fixpoint issueAll (ms : list Mutation) : M unit :=
  match ms with
  | [] => ret tt
  | m :: rest => issue m ;; issueAll rest
  end.

(** Whether an offline mutation reaches the queue: [updateNote] throws
    'Note not found' before it enqueues when no note has the id. *)
Definition enqueues (s : NotesState) (m : Mutation) : bool :=
  match m with
  | Update input => bool_decide (is_Some (findNote (upd_id input) (notes s)))
  | _ => true
  end.

(** How many mutations of a sequence reach the queue, each judged on the
    store it is issued on. *)
Fixpoint enqueuedBy (ms : list Mutation) (w : World) (s : NotesState) : nat :=
  match ms with
  | [] => 0%nat
  | m :: rest =>
      ((if enqueues s m then 1 else 0) +
       enqueuedBy rest (issue m w s).1.2 (issue m w s).2)%nat
  end.

End Driver.

Definition renamed (id title : string) : UpdateNoteInput :=
  {| upd_id := id; upd_title := Some title; upd_content := None;
     upd_parent_id := None; upd_position := None; upd_is_archived := None;
     upd_is_favorite := None; upd_tags := None; upd_metadata := None |}.

(** ** Reading a hierarchy *)

(** What a tree node shows of its note. *)
Definition noteView (n : Note) : string * string * option string * Z * bool :=
  (note_id n, note_title n, note_parent_id n, note_position n,
   note_is_archived n).

Definition nodeView (t : NoteTree) : string * string * option string * Z * bool :=
  (tree_id t, tree_title t, tree_parent_id t, tree_position t,
   tree_is_archived t).

(** Every node of a subtree, paired with the number of parent links that
    separate it from the top, the top itself counting [hops]. *)
Fixpoint nodesWithHops (hops : nat) (t : NoteTree) : list (nat * NoteTree) :=
  (hops, t) :: flat_map (nodesWithHops (S hops)) (tree_children t).

Definition treeNodes (tree : list NoteTree) : list (nat * NoteTree) :=
  flat_map (nodesWithHops 0) tree.


(** The notes a walk from the roots meets: a root is a note without a
    (truthy) parent id, and a child names the id of a note already met. *)
Inductive reachable (notes : list Note) : Note → Prop :=
| reachable_root n :
    n ∈ notes → truthy (note_parent_id n) = false → reachable notes n
| reachable_child m n :
    reachable notes m → n ∈ notes → note_parent_id n = Some (note_id m) →
    reachable notes n.

(** [b] is the id of a note below the id [a]. *)
Inductive descendantOf (notes : list Note) (a : string) : string → Prop :=
| descendant_child n :
    n ∈ notes → note_parent_id n = Some a → descendantOf notes a (note_id n)
| descendant_below n b :
    n ∈ notes → note_parent_id n = Some a →
    descendantOf notes (note_id n) b → descendantOf notes a b.

(** The parent relation is acyclic, with every chain of parent links
    shorter than [bound]: a rank that strictly grows from child to
    parent. *)
Definition acyclicWithin (notes : list Note) (rank : string → nat)
    (bound : nat) : Prop :=
  (∀ n p, n ∈ notes → note_parent_id n = Some p →
          (rank (note_id n) < rank p)%nat) ∧
  (∀ n, n ∈ notes → (rank (note_id n) < bound)%nat).

Definition archivedRoot : Note :=
  {| note_id := "a1"; note_title := "Old"; note_content := "";
     note_summary := None; note_created_at := "2024-01-01T00:00:00.000Z";
     note_updated_at := "2024-01-01T00:00:00.000Z";
     note_parent_id := None; note_position := 0;
     note_is_archived := true; note_is_favorite := false; note_tags := [];
     note_word_count := 0; note_character_count := 0;
     note_estimated_read_time := 1; note_last_sync_at := None;
     note_sync_status := synced; note_version := 1;
     note_metadata := empty_metadata |}.

Definition orphan : Note := remoteNote "n9" "Lost" (Some "gone") 0.

(** Ranks for the chain n1 > n2 > n3. *)
Definition chainRank (id : string) : nat :=
  if String.eqb id "n1" then 2
  else if String.eqb id "n2" then 1 else 0.

(** ** More of the store: selection, shortcuts, cloud sync *)

(** [!!value] of a [Note | null]. *)
Definition notNull {A} (o : option A) : bool :=
  match o with Some _ => true | None => false end.

(** [notes.findIndex(n => n.id === id)], [-1] when there is none. *)
Definition findIndex (id : string) (l : list Note) : Z :=
  match findNote id l with
  | Some (index, _) => Z.of_nat index
  | None => -1
  end.

(** [selectedNoteId ? notes.findIndex(...) : -1] *)
Definition currentIndex (s : NotesState) : Z :=
  match selectedNoteId s with
  | Some id => if truthy (Some id) then findIndex id (notes s) else -1
  | None => -1
  end.

Definition selectNote (id : option string) : M unit :=
  set (set_selectedNoteId id).

(** [selectNote(notes[index].id)]; reading [id] off a hole of the array
    is a [TypeError]. *)
Definition selectAt (index : Z) : M unit :=
  do s <- get;
  match (if (index <? 0)%Z then None else notes s !! Z.to_nat index) with
  | Some n => selectNote (Some (note_id n))
  | None => throw (ErrorObj "Cannot read properties of undefined")
  end.

Definition selectNextNote : M unit :=
  do s <- get;
  if decide (length (notes s) = 0%nat) then ret tt
  else
    let current := currentIndex s in
    let nextIndex :=
      if (current <? Z.of_nat (length (notes s)) - 1)%Z
      then (current + 1)%Z else 0%Z in
    selectAt nextIndex.

Definition selectPrevNote : M unit :=
  do s <- get;
  if decide (length (notes s) = 0%nat) then ret tt
  else
    let current := currentIndex s in
    let prevIndex :=
      if (0 <? current)%Z
      then (current - 1)%Z else (Z.of_nat (length (notes s)) - 1)%Z in
    selectAt prevIndex.

Definition clearError : M unit := set (set_error None).

Definition archivedInput (id : string) (flag : bool) : UpdateNoteInput :=
  {| upd_id := id; upd_title := None; upd_content := None;
     upd_parent_id := None; upd_position := None;
     upd_is_archived := Some flag; upd_is_favorite := None;
     upd_tags := None; upd_metadata := None |}.

Definition favoriteInput (id : string) (flag : bool) : UpdateNoteInput :=
  {| upd_id := id; upd_title := None; upd_content := None;
     upd_parent_id := None; upd_position := None; upd_is_archived := None;
     upd_is_favorite := Some flag; upd_tags := None; upd_metadata := None |}.

Definition tagsInput (id : string) (tags : list string) : UpdateNoteInput :=
  {| upd_id := id; upd_title := None; upd_content := None;
     upd_parent_id := None; upd_position := None; upd_is_archived := None;
     upd_is_favorite := None; upd_tags := Some tags; upd_metadata := None |}.

Section MoreActions.

Variable db : Repository.
Variable isoString : nat → string.
Variable randomId : nat → string.
Variable stack : nat.

Definition duplicateInput (originalNote : Note) : CreateNoteInput :=
  {| cin_title := note_title originalNote +:+ " (Copy)";
     cin_content := Some (note_content originalNote);
     cin_parent_id := note_parent_id originalNote;
     cin_position := None;
     cin_tags := Some (note_tags originalNote);
     cin_metadata := Some (note_metadata originalNote) |}.

Definition duplicateNote (id : string) : M (option Note) :=
  do s <- get;
  match findNote id (notes s) with
  | None => ret None
  | Some (_, originalNote) =>
      createNote db isoString randomId stack (duplicateInput originalNote)
  end.

Definition archiveNote (id : string) : M bool :=
  do r <- updateNote db isoString randomId (archivedInput id true);
  ret (notNull r).

Definition unarchiveNote (id : string) : M bool :=
  do r <- updateNote db isoString randomId (archivedInput id false);
  ret (notNull r).

Definition toggleFavorite (id : string) : M bool :=
  do s <- get;
  match findNote id (notes s) with
  | None => ret false
  | Some (_, note) =>
      do r <- updateNote db isoString randomId
                (favoriteInput id (negb (note_is_favorite note)));
      ret (notNull r)
  end.

Definition addTag (noteId tag : string) : M bool :=
  do s <- get;
  match findNote noteId (notes s) with
  | None => ret false
  | Some (_, note) =>
      if bool_decide (tag ∈ note_tags note) then ret false
      else
        do r <- updateNote db isoString randomId
                  (tagsInput noteId (note_tags note ++ [tag]));
        ret (notNull r)
  end.

Definition removeTag (noteId tag : string) : M bool :=
  do s <- get;
  match findNote noteId (notes s) with
  | None => ret false
  | Some (_, note) =>
      do r <- updateNote db isoString randomId
                (tagsInput noteId (filter (λ t, t ≠ tag) (note_tags note)));
      ret (notNull r)
  end.

Definition refreshNotes : M unit := fetchNotes db isoString stack empty_filter.

(** [syncWithCloud] of the store. [NoteStorage.setLastSync(get().lastSyncAt!)]
    writes whatever [lastSyncAt] holds; a stored [null] reads back like a
    key that was never written. *)
Definition syncWithCloud : M unit :=
  do s <- get;
  if negb (isOnline s) then ret tt
  else
    set (set_syncStatus syncing) ;;
    try_catch
      (processOfflineQueue db ;;
       fetchNotes db isoString stack empty_filter ;;
       do stamp <- now isoString;
       set (λ s, set_lastSyncAt (Some stamp) (set_syncStatus synced s)) ;;
       do s' <- get;
       storage_write
         (λ l, {| ls_available := ls_available l; ls_notes := ls_notes l;
                  ls_offline_queue := ls_offline_queue l;
                  ls_last_sync := lastSyncAt s' |}))
      (λ e,
         set (λ s, set_error (Some (messageOr "Sync failed" e))
                     (set_syncStatus error_status s))).

(** ** More of the sync hook *)

(** The [sync] callback as a render creates it: [isOnline] and
    [offlineQueue] are the values that render selected from the store
    (use-sync.ts:28-30), fixed for the life of the callback, while the
    store actions it calls read the store as it is. [sync] is this callback
    for a render that has seen the current snapshot. *)
Definition syncFrom (renderOnline : bool) (renderQueue : list OfflineOperation)
    (h : SyncHook) : M SyncHook :=
  if negb renderOnline then ret h
  else
    try_catch
      (setSyncStatus syncing ;;
       do isConnected <- checkConnection db;
       (if negb isConnected
        then throw (ErrorObj "No connection to database") else ret tt) ;;
       when (bool_decide (0 < length renderQueue)%nat)
         (processOfflineQueue db) ;;
       fetchNotes db isoString stack empty_filter ;;
       setSyncStatus synced ;;
       do stamp <- now isoString;
       NoteStorage_setLastSync stamp ;;
       ret {| hook_error := None; syncProgress := 100;
              retryCountRef := 0%nat;
              retryTimeoutRef := retryTimeoutRef h;
              timeouts := timeouts h; cleared := cleared h |})
      (λ e,
         setSyncStatus error_status ;;
         ret (scheduleRetry
                {| hook_error := Some (messageOr "Sync failed" e);
                   syncProgress := 0;
                   retryCountRef := retryCountRef h;
                   retryTimeoutRef := retryTimeoutRef h;
                   timeouts := timeouts h; cleared := cleared h |})).

Definition resetSync (h : SyncHook) : M SyncHook :=
  setSyncStatus synced ;;
  clearOfflineQueue ;;
  ret (clearRetryTimeout
         {| hook_error := None; syncProgress := 0; retryCountRef := 0%nat;
            retryTimeoutRef := retryTimeoutRef h;
            timeouts := timeouts h; cleared := cleared h |}).

Definition clearSyncError (h : SyncHook) : SyncHook :=
  {| hook_error := None; syncProgress := syncProgress h;
     retryCountRef := retryCountRef h; retryTimeoutRef := retryTimeoutRef h;
     timeouts := timeouts h; cleared := cleared h |}.

End MoreActions.

(** ** More of the notes hook ([useNotesWithActions], [useNoteHierarchy]) *)

Definition getNoteById (notes : list Note) (id : string) : option Note :=
  snd <$> findNote id notes.

Definition getNoteChildren (notes : list Note) (parentId : string) : list Note :=
  sortByPosition (childrenOf notes parentId).

(** [note?.parent_id ? getNoteById(note.parent_id) : undefined] *)
Definition parentOf (notes : list Note) (note : Note) : option Note :=
  match note_parent_id note with
  | Some p => if truthy (Some p) then getNoteById notes p else None
  | None => None
  end.

Definition getNoteParent (notes : list Note) (noteId : string) : option Note :=
  match getNoteById notes noteId with
  | Some note => parentOf notes note
  | None => None
  end.

Definition isNoteModified (note : Note) : bool :=
  bool_decide (note_sync_status note = pending)
  || bool_decide (note_sync_status note = syncing).

Definition canDeleteNote (notes : list Note) (noteId : string) : bool :=
  bool_decide (length (getNoteChildren notes noteId) = 0%nat).

Definition getRootNotes (notes : list Note) : list Note :=
  sortByPosition (filter (λ n, truthy (note_parent_id n) = false) notes).

(** The [while (currentNote)] loop of [getNotePath]; [fuel] bounds the
    number of iterations, and a loop that is still running when it is spent
    gives [None]. *)
Fixpoint walkToRoot (fuel : nat) (notes : list Note) (currentNote : option Note)
    (path : list Note) : option (list Note) :=
  match currentNote with
  | None => Some path
  | Some note =>
      match fuel with
      | O => None
      | S fuel' => walkToRoot fuel' notes (parentOf notes note) (note :: path)
      end
  end.

Definition getNotePath (fuel : nat) (notes : list Note) (noteId : string)
    : option (list Note) :=
  walkToRoot fuel notes (getNoteById notes noteId) [].

(** A collection in which no two notes share an id and no id is empty. *)
Definition distinctIds (notes : list Note) : Prop :=
  NoDup (note_id <$> notes) ∧ Forall (λ n, note_id n ≠ "") notes.

Definition taggedNote (id : string) (tags : list string) (favorite : bool) : Note :=
  {| note_id := id; note_title := id; note_content := "";
     note_summary := None; note_created_at := "2024-01-01T00:00:00.000Z";
     note_updated_at := "2024-01-01T00:00:00.000Z";
     note_parent_id := None; note_position := 0;
     note_is_archived := false; note_is_favorite := favorite;
     note_tags := tags; note_word_count := 0; note_character_count := 0;
     note_estimated_read_time := 1; note_last_sync_at := None;
     note_sync_status := synced; note_version := 1;
     note_metadata := empty_metadata |}.

(** ** Expected outcomes, to state what an action leaves behind *)

Section Outcomes.

Variable isoString : nat → string.
Variable randomId : nat → string.

(** World and store after an offline [updateNote] that found its note at
    [index] and stored [merged] there. *)
Definition afterOfflineUpdate (w : World) (s : NotesState) (input : UpdateNoteInput)
    (index : nat) (merged : Note) : World * NotesState :=
  let operation := {| op_id := randomId (w_entropy w);
                      op_payload := op_update input;
                      op_timestamp := isoString (S (w_clock w)) |} in
  let s' := set_notes (<[index := merged]> (notes s))
              (set_offlineQueue (offlineQueue s ++ [operation]) s) in
  let storage := w_storage w in
  let w' :=
    {| w_calls := w_calls w;
       w_storage :=
         if ls_available storage
         then {| ls_available := true;
                 ls_notes := Some (notes s');
                 ls_offline_queue := Some (offlineQueue s');
                 ls_last_sync := ls_last_sync storage |}
         else storage;
       w_clock := S (S (w_clock w));
       w_entropy := S (w_entropy w) |} in
  (w', s').

End Outcomes.

(** A list of notes read upwards: the parent the hook finds for each note
    is the next note of the list, and the last note has none. *)
Fixpoint isUpward (notes : list Note) (up : list Note) : Prop :=
  match up with
  | [] => True
  | note :: rest => parentOf notes note = head rest ∧ isUpward notes rest
  end.

(** ** More of [NoteStorage] (lib/storage.ts) *)

Definition NoteStorage_getOfflineQueue : M (list OfflineOperation) :=
  λ w s, (Return (if ls_available (w_storage w)
                  then default [] (ls_offline_queue (w_storage w)) else []),
          w, s).

Definition NoteStorage_addToOfflineQueue (item : OfflineOperation) : M unit :=
  do queue <- NoteStorage_getOfflineQueue;
  NoteStorage_setOfflineQueue (queue ++ [item]).

Definition NoteStorage_removeFromOfflineQueue (itemId : string) : M unit :=
  do queue <- NoteStorage_getOfflineQueue;
  NoteStorage_setOfflineQueue (filter (λ item, op_id item ≠ itemId) queue).

Definition sampleOperation : OfflineOperation :=
  {| op_id := "op-9"; op_payload := op_delete "n9"; op_timestamp := "T9" |}.

(** An offline store with one note that carries the tag "a". *)
Definition taggedState : NotesState :=
  set_notes [taggedNote "t1" ["a"] false] offlineState.
(** * Properties *)

Ltac monad_unfold :=
  unfold bind, ret, throw, try_catch, get, set, when, await,
    storage_write, now, generateId in *.

(** ** Store reset *)

(** C10: [reset] puts notes, selection, loading, error, search query and
    results, filters, tree, expanded set, sync status, offline queue,
    sidebar state and view mode back to the values the store is created
    with, and keeps [isOnline] and [lastSyncAt] (and the outside world) as
    they are. *)
Theorem reset_restores_all_but_connectivity (w : World) (s : NotesState) :
  ∃ s', reset w s = (Return tt, w, s') ∧
    notes s' = notes initialState ∧
    selectedNoteId s' = selectedNoteId initialState ∧
    loading s' = loading initialState ∧
    error s' = error initialState ∧
    searchQuery s' = searchQuery initialState ∧
    searchResults s' = searchResults initialState ∧
    filters s' = filters initialState ∧
    noteTree s' = noteTree initialState ∧
    expandedNotes s' = expandedNotes initialState ∧
    syncStatus s' = syncStatus initialState ∧
    offlineQueue s' = offlineQueue initialState ∧
    sidebarCollapsed s' = sidebarCollapsed initialState ∧
    viewMode s' = viewMode initialState ∧
    isOnline s' = isOnline s ∧
    lastSyncAt s' = lastSyncAt s.
Proof.
  eexists. split; [reflexivity|]. cbn. split_and!; reflexivity.
Qed.

(** ** Draining the offline queue *)

Lemma applyOperation_effect db operation w s :
  ∃ r, applyOperation db operation w s
       = (r, set_w_calls (w_calls w ++ [callOf operation]) w, s).
Proof.
  unfold applyOperation, callOf, notes_create, notes_update, notes_delete.
  monad_unfold.
  destruct (op_payload operation); simpl; [| |by eexists];
    match goal with |- context [match ?x with _ => _ end] => destruct x end;
    by eexists.
Qed.

(** The loop replays every operation, in queue order, whatever the
    repository answers, and touches neither the store nor the mirror. *)
Lemma forEachOperation_effect db queue w s :
  ∃ w', forEachOperation db queue w s = (Return tt, w', s) ∧
        w_calls w' = w_calls w ++ map callOf queue ∧
        w_storage w' = w_storage w ∧
        w_clock w' = w_clock w ∧ w_entropy w' = w_entropy w.
Proof.
  revert w. induction queue as [|operation rest IH]; intros w; simpl.
  - exists w. by rewrite app_nil_r.
  - destruct (applyOperation_effect db operation w s) as [r Hr].
    destruct (IH (set_w_calls (w_calls w ++ [callOf operation]) w))
      as (w' & Hrun & Hcalls & Hst & Hclk & Hent).
    exists w'. split.
    + unfold bind at 1, try_catch. rewrite Hr. by destruct r.
    + simpl in *. by rewrite Hcalls, <- app_assoc.
Qed.

Lemma processOfflineQueue_effect db w s :
  offlineQueue s ≠ [] →
  ∃ w', processOfflineQueue db w s = (Return tt, w', set_offlineQueue [] s) ∧
        w_calls w' = w_calls w ++ map callOf (offlineQueue s).
Proof.
  intros Hne. unfold processOfflineQueue, bind at 1, get.
  destruct (decide (length (offlineQueue s) = 0%nat)) as [Hlen|_].
  { by apply length_zero_iff_nil in Hlen. }
  destruct (forEachOperation_effect db (offlineQueue s) w s)
    as (w1 & Hrun & Hcalls & _).
  unfold bind at 1. rewrite Hrun.
  unfold clearOfflineQueue, NoteStorage_setOfflineQueue. monad_unfold.
  eexists. split; [reflexivity|].
  by destruct (ls_available (w_storage w1)).
Qed.

Lemma processOfflineQueue_nil db w s :
  offlineQueue s = [] → processOfflineQueue db w s = (Return tt, w, s).
Proof.
  intros Hnil. unfold processOfflineQueue, bind, get. by rewrite Hnil.
Qed.

(** C8: draining an empty queue is a no-op: nothing is sent to the
    repository (the call log, like the rest of the world, is the same) and
    the store snapshot is the same. *)
Theorem processOfflineQueue_empty_is_noop (db : Repository) (w : World)
    (s : NotesState) :
  length (offlineQueue s) = 0%nat →
  processOfflineQueue db w s = (Return tt, w, s).
Proof.
  intros Hlen. unfold processOfflineQueue, bind, get.
  by rewrite decide_True.
Qed.

Lemma processOfflineQueue_empty_is_noop_witness :
  processOfflineQueue unreachableRepository emptyWorld chainState
  = (Return tt, emptyWorld, chainState).
Proof.
  apply (processOfflineQueue_empty_is_noop unreachableRepository emptyWorld
           chainState).
  reflexivity.
Defined.

(** C1, as the code has it: a rejection does not end the pass. Every
    operation of the queue is replayed, in queue order, whatever the
    repository answered to the ones before it, and once the pass is over
    no operation the repository accepted is left in the queue; the note
    collection is not touched. *)
Theorem processOfflineQueue_replays_every_operation (db : Repository)
    (w : World) (s : NotesState) :
  ∃ w' s',
    processOfflineQueue db w s = (Return tt, w', s') ∧
    w_calls w' = w_calls w ++ map callOf (offlineQueue s) ∧
    (∀ i operation,
       offlineQueue s !! i = Some operation →
       accepts db (w_calls w ++ map callOf (take i (offlineQueue s))) operation →
       operation ∉ offlineQueue s') ∧
    notes s' = notes s.
Proof.
  destruct (decide (offlineQueue s = [])) as [Hnil|Hne].
  - exists w, s. rewrite processOfflineQueue_nil by done.
    rewrite Hnil. simpl. rewrite app_nil_r. split_and!; done.
  - destruct (processOfflineQueue_effect db w s Hne) as (w' & -> & Hcalls).
    eexists _, _. split; [reflexivity|]. simpl. split_and!; try done.
    intros i operation _ _. apply not_elem_of_nil.
Qed.

Lemma processOfflineQueue_replays_every_operation_witness :
  ∃ w' s',
    processOfflineQueue rejectFirstRepository emptyWorld
      (set_offlineQueue threeOperations initialState) = (Return tt, w', s') ∧
    w_calls w' = map callOf threeOperations ∧
    ∀ operation, threeOperations !! 1%nat = Some operation →
                 operation ∉ offlineQueue s'.
Proof.
  destruct (processOfflineQueue_replays_every_operation rejectFirstRepository
              emptyWorld (set_offlineQueue threeOperations initialState))
    as (w' & s' & Hrun & Hcalls & Hgone & _).
  exists w', s'. split_and!; [exact Hrun|exact Hcalls|].
  intros operation Hat. apply (Hgone 1%nat operation Hat).
  injection Hat as <-. unfold accepts. simpl. eexists. reflexivity.
Defined.

(** C1 as stated fails: with three queued operations and a repository
    that rejects the first, the pass still sends the second and the third,
    and then empties the queue, the rejected operation included. *)
Lemma rejected_operation_neither_stops_the_pass_nor_stays :
  let s := set_offlineQueue threeOperations initialState in
  ∃ w' s',
    processOfflineQueue rejectFirstRepository emptyWorld s
    = (Return tt, w', s') ∧
    db_create rejectFirstRepository [] (titled "N1" None)
    = Throw (ErrorObj "insert rejected") ∧
    w_calls w' = map callOf threeOperations ∧
    offlineQueue s' = [].
Proof.
  eexists _, _. split; [reflexivity|]. split_and!; reflexivity.
Qed.

(** ** Deleting a note *)

(** C9: when [deleteNote id] returns [true], online or offline, the
    collection is the old one without the notes whose id is [id]: no such
    note remains, every note with another id remains, and a selection that
    pointed at [id] is reset to [null] (any other selection is kept). *)
Theorem deleteNote_true_removes (db : Repository) (isoString randomId : nat → string)
    (stack : nat) (id : string) (w w' : World) (s s' : NotesState) :
  deleteNote db isoString randomId stack id w s = (Return true, w', s') →
  notes s' = filter (λ n, note_id n ≠ id) (notes s) ∧
  (∀ n, n ∈ notes s' → note_id n ≠ id) ∧
  (∀ n, n ∈ notes s → note_id n ≠ id → n ∈ notes s') ∧
  (selectedNoteId s = Some id → selectedNoteId s' = None) ∧
  (selectedNoteId s ≠ Some id → selectedNoteId s' = selectedNoteId s).
Proof.
  intros H.
  assert (notes s' = filter (λ n, note_id n ≠ id) (notes s) ∧
          selectedNoteId s' = if decide (selectedNoteId s = Some id)
                              then None else selectedNoteId s) as [Hn Hs].
  { unfold deleteNote, buildNoteTree, addToOfflineQueue, NoteStorage_setNotes,
      NoteStorage_setOfflineQueue, notes_delete in H.
    monad_unfold. simpl in H.
    destruct (isOnline s); simpl in H.
    - destruct (db_delete db (w_calls w) id); simpl in H; [|by inversion H].
      destruct (decide (selectedNoteId s = Some id)); simpl in H;
        destruct (buildTree _ _); simpl in H; inversion H; subst; done.
    - destruct (decide (selectedNoteId s = Some id)); simpl in H;
        destruct (buildTree _ _); simpl in H; inversion H; subst; done. }
  rewrite Hn, Hs. split_and!; try done.
  - intros n Hin. by apply list_elem_of_filter in Hin as [? _].
  - intros n Hin Hne. by apply list_elem_of_filter.
  - intros ->. by rewrite decide_True.
  - intros Hne. by rewrite decide_False.
Qed.

Lemma deleteNote_true_removes_witness :
  ∃ w' s',
    deleteNote stubRepository sampleClock sampleId 8 "n2" emptyWorld chainState
    = (Return true, w', s') ∧
    notes s' = [note1; note3] ∧ selectedNoteId s' = None.
Proof.
  eexists _, _. split; [reflexivity|].
  destruct (deleteNote_true_removes stubRepository sampleClock sampleId 8 "n2"
              emptyWorld _ chainState _ eq_refl) as (Hn & _ & _ & Hs & _).
  split; [exact Hn | by apply Hs].
Defined.

(** ** Retry backoff of the sync hook *)

Section SyncRetry.

Variable db : Repository.
Variable isoString : nat → string.
Variable stack : nat.

Lemma sync_unreachable h w s :
  isOnline s = true → db_checkConnection db (w_calls w) = false →
  sync db isoString stack h w s
  = (Return (scheduleRetry
               {| hook_error := Some "No connection to database";
                  syncProgress := 0; retryCountRef := retryCountRef h;
                  retryTimeoutRef := retryTimeoutRef h;
                  timeouts := timeouts h; cleared := cleared h |}),
     set_w_calls (w_calls w ++ [CallCheckConnection]) w,
     set_syncStatus error_status (set_syncStatus syncing s)).
Proof.
  intros Hon Hdown. unfold sync, setSyncStatus, checkConnection.
  monad_unfold. rewrite Hon. simpl. rewrite Hdown. reflexivity.
Qed.

Lemma scheduleRetry_below h :
  (retryCountRef h < RETRY_ATTEMPTS)%nat →
  timeouts (scheduleRetry h) = timeouts h ++ [backoff (retryCountRef h)] ∧
  retryCountRef (scheduleRetry h) = S (retryCountRef h).
Proof.
  intros Hlt. unfold scheduleRetry. rewrite decide_False by lia. done.
Qed.

Lemma scheduleRetry_capped h :
  (RETRY_ATTEMPTS ≤ retryCountRef h)%nat → scheduleRetry h = h.
Proof. intros Hge. unfold scheduleRetry. by rewrite decide_True. Qed.

Lemma syncCycles_unreachable n hook w s :
  (∀ history, db_checkConnection db history = false) →
  isOnline s = true → retryCountRef hook = 0%nat →
  ∃ hook' w' s',
    syncCycles db isoString stack n hook w s = (Return hook', w', s') ∧
    timeouts hook' = timeouts hook ++ map backoff (seq 0 (n `min` RETRY_ATTEMPTS)) ∧
    retryCountRef hook' = (n `min` RETRY_ATTEMPTS)%nat ∧
    (0 < n → syncStatus s' = error_status)%nat ∧
    offlineQueue s' = offlineQueue s ∧ notes s' = notes s ∧
    isOnline s' = true.
Proof.
  intros Hdown Hon Hzero. induction n as [|n IH]; cbn [syncCycles].
  - exists hook, w, s. simpl. rewrite app_nil_r. split_and!; try done. lia.
  - destruct IH as (h1 & w1 & s1 & Hrun & Htim & Hcnt & _ & Hq & Hn & Hon1).
    unfold bind. rewrite Hrun, (sync_unreachable h1 w1 s1 Hon1 (Hdown _)).
    eexists _, _, _. split; [reflexivity|].
    split_and!; try done.
    + destruct (decide (n < RETRY_ATTEMPTS)%nat) as [Hlt|Hge].
      * edestruct scheduleRetry_below as [-> _]; [simpl; lia|].
        cbn [timeouts retryCountRef]. rewrite Htim, Hcnt.
        replace (S n `min` RETRY_ATTEMPTS)%nat with (S n) by lia.
        replace (n `min` RETRY_ATTEMPTS)%nat with n by lia.
        by rewrite seq_S, map_app, app_assoc.
      * rewrite scheduleRetry_capped by (simpl; lia).
        cbn [timeouts]. rewrite Htim.
        by replace (S n `min` RETRY_ATTEMPTS)%nat
             with (n `min` RETRY_ATTEMPTS)%nat by lia.
    + destruct (decide (n < RETRY_ATTEMPTS)%nat) as [Hlt|Hge].
      * edestruct scheduleRetry_below as [_ ->]; [simpl; lia|].
        cbn [retryCountRef]. lia.
      * rewrite scheduleRetry_capped by (simpl; lia).
        cbn [retryCountRef]. lia.
Qed.

End SyncRetry.

(** C7, as the code has it: while the backend stays unreachable, the retry
    armed after the n-th consecutive failed cycle (n = 1, 2, ...,
    [RETRY_ATTEMPTS]) has delay [RETRY_DELAY * 2 ^ (n - 1)], so the first
    one waits [RETRY_DELAY * 2 ^ 0]; from the moment the counter has
    reached [RETRY_ATTEMPTS] a failed cycle arms nothing, and the engine
    is left in 'error' with queue and notes as they were. A manual retry
    clears the pending timer and starts its cycle with the counter at 0:
    when that cycle fails too, the backoff starts over at [RETRY_DELAY]. *)
Theorem retry_backoff_schedule (db : Repository) (isoString : nat → string)
    (stack n : nat) (hook : SyncHook) (w : World) (s : NotesState) :
  (∀ history, db_checkConnection db history = false) →
  isOnline s = true → retryCountRef hook = 0%nat →
  ∃ hook' w' s',
    syncCycles db isoString stack n hook w s = (Return hook', w', s') ∧
    timeouts hook'
    = timeouts hook
      ++ map (λ k, RETRY_DELAY * 2 ^ Z.of_nat k) (seq 0 (n `min` RETRY_ATTEMPTS)) ∧
    retryCountRef hook' = (n `min` RETRY_ATTEMPTS)%nat ∧
    (0 < n → syncStatus s' = error_status)%nat ∧
    offlineQueue s' = offlineQueue s ∧
    notes s' = notes s ∧
    ∃ hook'' w'' s'',
      retryFailedSync db isoString stack hook' w' s'
      = (Return hook'', w'', s'') ∧
      retryCountRef hook'' = 1%nat ∧
      timeouts hook'' = timeouts hook' ++ [RETRY_DELAY * 2 ^ 0] ∧
      cleared hook''
      = cleared hook' ++ from_option (λ handle, [handle]) [] (retryTimeoutRef hook') ∧
      syncStatus s'' = error_status ∧
      offlineQueue s'' = offlineQueue s.
Proof.
  intros Hdown Hon Hzero.
  destruct (syncCycles_unreachable db isoString stack n hook w s Hdown Hon Hzero)
    as (h1 & w1 & s1 & Hrun & Htim & Hcnt & Hst & Hq & Hn & Hon1).
  exists h1, w1, s1. split_and!; try done.
  unfold retryFailedSync.
  rewrite (sync_unreachable db isoString stack _ w1 s1 Hon1 (Hdown _)).
  eexists _, _, _. split; [reflexivity|].
  unfold scheduleRetry, clearRetryTimeout, RETRY_ATTEMPTS.
  destruct (retryTimeoutRef h1); simpl; split_and!; try done.
  by rewrite app_nil_r.
Qed.

Lemma retry_backoff_schedule_witness :
  ∃ hook' w' s',
    syncCycles unreachableRepository sampleClock 8 5 initialHook emptyWorld
      initialState = (Return hook', w', s') ∧
    timeouts hook' = [1000; 2000; 4000] ∧ retryCountRef hook' = 3%nat.
Proof.
  destruct (retry_backoff_schedule unreachableRepository sampleClock 8 5
              initialHook emptyWorld initialState
              (λ _, eq_refl) eq_refl eq_refl)
    as (hook' & w' & s' & Hrun & Htim & Hcnt & _).
  exists hook', w', s'. split_and!; [exact Hrun|exact Htim|exact Hcnt].
Defined.

(** C7 as stated fails: after the first failed cycle the retry is armed
    with [RETRY_DELAY] (1000 ms), not with [RETRY_DELAY * 2 ^ 1]. *)
Lemma first_retry_delay_is_not_doubled :
  ∃ hook' w' s',
    sync unreachableRepository sampleClock 8 initialHook emptyWorld initialState
    = (Return hook', w', s') ∧
    timeouts hook' = [RETRY_DELAY] ∧
    timeouts hook' ≠ [RETRY_DELAY * 2 ^ 1].
Proof.
  eexists _, _, _. split; [reflexivity|]. split; [reflexivity|]. discriminate.
Qed.

(** ** Mutations issued while offline *)

Section OfflineMutations.

Variable db : Repository.
Variable isoString : nat → string.
Variable randomId : nat → string.
Variable stack : nat.

Lemma createNote_offline input w s :
  isOnline s = false →
  ∃ r w' s',
    createNote db isoString randomId stack input w s = (Return r, w', s') ∧
    length (offlineQueue s') = S (length (offlineQueue s)) ∧
    isOnline s' = false.
Proof.
  intros Hoff.
  unfold createNote, buildNoteTree, addToOfflineQueue, NoteStorage_setNotes,
    NoteStorage_setOfflineQueue.
  monad_unfold. simpl. rewrite Hoff. simpl.
  destruct (buildTree _ _); simpl; eexists _, _, _;
    (split; [reflexivity|]); simpl; by rewrite length_app, Nat.add_1_r.
Qed.

Lemma updateNote_offline input w s :
  isOnline s = false →
  ∃ r w' s',
    updateNote db isoString randomId input w s = (Return r, w', s') ∧
    length (offlineQueue s')
    = ((if bool_decide (is_Some (findNote (upd_id input) (notes s)))
        then 1 else 0) + length (offlineQueue s))%nat ∧
    isOnline s' = false.
Proof.
  intros Hoff.
  unfold updateNote, addToOfflineQueue, NoteStorage_setNotes,
    NoteStorage_setOfflineQueue.
  monad_unfold. simpl. rewrite Hoff.
  destruct (findNote (upd_id input) (notes s)) as [[index existing]|] eqn:Hfind;
    simpl.
  - rewrite Hfind. eexists _, _, _. split; [reflexivity|]. simpl.
    rewrite length_app. simpl. split; [lia|done].
  - by eexists _, _, _.
Qed.

Lemma deleteNote_offline id w s :
  isOnline s = false →
  ∃ r w' s',
    deleteNote db isoString randomId stack id w s = (Return r, w', s') ∧
    length (offlineQueue s') = S (length (offlineQueue s)) ∧
    isOnline s' = false.
Proof.
  intros Hoff.
  unfold deleteNote, buildNoteTree, addToOfflineQueue, NoteStorage_setNotes,
    NoteStorage_setOfflineQueue.
  monad_unfold. simpl. rewrite Hoff. simpl.
  destruct (decide (selectedNoteId s = Some id)); simpl;
    destruct (buildTree _ _); simpl; eexists _, _, _;
    (split; [reflexivity|]); simpl; by rewrite length_app, Nat.add_1_r.
Qed.

Lemma issue_offline m w s :
  isOnline s = false →
  ∃ w' s',
    issue db isoString randomId stack m w s = (Return tt, w', s') ∧
    length (offlineQueue s')
    = ((if enqueues s m then 1 else 0) + length (offlineQueue s))%nat ∧
    isOnline s' = false.
Proof.
  intros Hoff. destruct m as [input|input|id]; unfold issue, bind at 1; simpl.
  - destruct (createNote_offline input w s Hoff) as (r & w' & s' & -> & ? & ?).
    by eexists _, _.
  - destruct (updateNote_offline input w s Hoff) as (r & w' & s' & -> & ? & ?).
    by eexists _, _.
  - destruct (deleteNote_offline id w s Hoff) as (r & w' & s' & -> & ? & ?).
    by eexists _, _.
Qed.

Lemma issueAll_offline ms w s :
  isOnline s = false →
  ∃ w' s',
    issueAll db isoString randomId stack ms w s = (Return tt, w', s') ∧
    length (offlineQueue s')
    = (length (offlineQueue s) + enqueuedBy db isoString randomId stack ms w s)%nat ∧
    isOnline s' = false.
Proof.
  revert w s. induction ms as [|m rest IH]; intros w s Hoff; simpl.
  - exists w, s. split_and!; [done|lia|done].
  - destruct (issue_offline m w s Hoff) as (w1 & s1 & Hrun & Hlen & Hoff1).
    destruct (IH w1 s1 Hoff1) as (w2 & s2 & Hrest & Hlen2 & Hoff2).
    exists w2, s2. unfold bind at 1. rewrite Hrun. simpl.
    split_and!; [done| |done]. rewrite Hlen2, Hlen. lia.
Qed.

Lemma enqueuedBy_le ms w s :
  (enqueuedBy db isoString randomId stack ms w s ≤ length ms)%nat.
Proof.
  revert w s. induction ms as [|m rest IH]; intros w s; simpl; [lia|].
  specialize (IH (issue db isoString randomId stack m w s).1.2
                (issue db isoString randomId stack m w s).2).
  destruct (enqueues s m); lia.
Qed.

Lemma enqueuedBy_no_update ms w s :
  Forall (λ m, ∀ input, m ≠ Update input) ms →
  enqueuedBy db isoString randomId stack ms w s = length ms.
Proof.
  intros Hall. revert w s.
  induction Hall as [|m rest Hm _ IH]; intros w s; simpl; [done|].
  rewrite IH. destruct m; simpl; try done. by destruct (Hm input).
Qed.

End OfflineMutations.

(** C2, as the code has it: every create and every delete issued offline
    adds one operation to the queue, and so does every update whose target
    id is in the collection when it is issued (an update of a missing id
    fails with 'Note not found' and adds nothing); a drain against a
    repository that always succeeds then leaves the queue with length 0,
    and leaves the note collection, and with it every per-note
    [sync_status], exactly as it was. *)
Theorem offline_mutations_fill_queue_and_drain_empties_it
    (db : Repository) (isoString randomId : nat → string) (stack : nat)
    (ms : list Mutation) (w : World) (s : NotesState) :
  isOnline s = false →
  succeedsAlways db →
  ∃ w' s',
    issueAll db isoString randomId stack ms w s = (Return tt, w', s') ∧
    length (offlineQueue s')
    = (length (offlineQueue s) + enqueuedBy db isoString randomId stack ms w s)%nat ∧
    (enqueuedBy db isoString randomId stack ms w s ≤ length ms)%nat ∧
    (Forall (λ m, ∀ input, m ≠ Update input) ms →
     enqueuedBy db isoString randomId stack ms w s = length ms) ∧
    ∃ w'' s'',
      processOfflineQueue db w' s' = (Return tt, w'', s'') ∧
      length (offlineQueue s'') = 0%nat ∧
      w_calls w'' = w_calls w' ++ map callOf (offlineQueue s') ∧
      notes s'' = notes s' ∧
      map note_sync_status (notes s'') = map note_sync_status (notes s').
Proof.
  intros Hoff _.
  destruct (issueAll_offline db isoString randomId stack ms w s Hoff)
    as (w1 & s1 & Hrun & Hlen & _).
  exists w1, s1. split_and!; [done|done|apply enqueuedBy_le| |].
  { apply enqueuedBy_no_update. }
  destruct (decide (offlineQueue s1 = [])) as [Hnil|Hne].
  - exists w1, s1. rewrite processOfflineQueue_nil by done.
    rewrite Hnil. simpl. by rewrite app_nil_r.
  - destruct (processOfflineQueue_effect db w1 s1 Hne) as (w2 & -> & Hcalls).
    by eexists _, _.
Qed.

Lemma stubRepository_succeedsAlways : succeedsAlways stubRepository.
Proof. split_and!; intros; simpl; eauto. Qed.

Lemma offline_mutations_fill_queue_and_drain_empties_it_witness :
  ∃ w' s',
    issueAll stubRepository sampleClock sampleId 4
      [Create (titled "N1" None); Update (renamed "nowhere" "X");
       Update (renamed "id-0" "N1 again"); Delete "id-0"]
      emptyWorld offlineState = (Return tt, w', s') ∧
    length (offlineQueue s') = 3%nat.
Proof.
  destruct (offline_mutations_fill_queue_and_drain_empties_it stubRepository
              sampleClock sampleId 4
              [Create (titled "N1" None); Update (renamed "nowhere" "X");
               Update (renamed "id-0" "N1 again"); Delete "id-0"]
              emptyWorld offlineState eq_refl stubRepository_succeedsAlways)
    as (w' & s' & Hrun & Hlen & _).
  exists w', s'. split; [exact Hrun|]. rewrite Hlen. reflexivity.
Defined.

(** C2 as stated fails: a note created offline is still 'pending' after
    the queue has been drained against a repository that always succeeds;
    and an update of an id that is not in the collection is a mutation
    issued offline that never reaches the queue. *)
Lemma drained_note_stays_pending :
  ∃ n w1 s1 w2 s2 w3 s3,
    createNote stubRepository sampleClock sampleId 4 (titled "N1" None)
      emptyWorld offlineState = (Return (Some n), w1, s1) ∧
    length (offlineQueue s1) = 1%nat ∧
    processOfflineQueue stubRepository w1 s1 = (Return tt, w2, s2) ∧
    length (offlineQueue s2) = 0%nat ∧
    notes s2 = [n] ∧
    note_sync_status n = pending ∧
    ¬ Forall (λ m, note_sync_status m = synced) (notes s2) ∧
    updateNote stubRepository sampleClock sampleId (renamed "nowhere" "X")
      emptyWorld offlineState = (Return None, w3, s3) ∧
    length (offlineQueue s3) = 0%nat.
Proof.
  eexists _, _, _, _, _, _, _. split; [reflexivity|].
  split_and!; try reflexivity.
  intros Hall. apply Forall_cons in Hall as [Hsynced _]. discriminate.
Qed.

(** ** The materialized tree *)

Lemma insertByPosition_Permutation x l : insertByPosition x l ≡ₚ x :: l.
Proof.
  induction l as [|y l IH]; simpl; [done|].
  destruct (note_position x <=? note_position y)%Z; [done|].
  by rewrite IH, Permutation_swap.
Qed.

Lemma sortByPosition_Permutation l : sortByPosition l ≡ₚ l.
Proof.
  induction l as [|x l IH]; simpl; [done|].
  by rewrite insertByPosition_Permutation, IH.
Qed.



Lemma elem_of_sorted_children notes parent c :
  c ∈ sortByPosition (childrenOf notes parent) →
  c ∈ notes ∧ note_parent_id c = Some parent.
Proof.
  rewrite sortByPosition_Permutation. unfold childrenOf.
  rewrite list_elem_of_filter. tauto.
Qed.

Lemma buildTreeNode_Some fuel notes note depth t :
  buildTreeNode fuel notes note depth = Some t →
  ∃ fuel',
    fuel = S fuel' ∧
    nodeView t = noteView note ∧
    tree_depth t = depth ∧
    Forall2 (λ c k, buildTreeNode fuel' notes c (S depth) = Some k)
      (sortByPosition (childrenOf notes (note_id note))) (tree_children t).
Proof.
  destruct fuel as [|fuel']; simpl; [done|].
  destruct (mapM _ _) as [children|] eqn:Hchildren; simpl; [|done].
  intros [= <-]. exists fuel'. split_and!; try done.
  by apply mapM_Some.
Qed.

Lemma elem_of_flat_map {A B} (f : A → list B) (l : list A) (y : B) :
  y ∈ flat_map f l ↔ ∃ x, x ∈ l ∧ y ∈ f x.
Proof.
  rewrite list_elem_of_In, in_flat_map.
  by setoid_rewrite list_elem_of_In.
Qed.

Lemma Forall2_elem_of_r {A B} (P : A → B → Prop) (l : list A) (k : list B) y :
  Forall2 P l k → y ∈ k → ∃ x, x ∈ l ∧ P x y.
Proof.
  intros Hall [i Hi]%list_elem_of_lookup.
  destruct (Forall2_lookup_r _ _ _ _ _ Hall Hi) as (x & Hx & HP).
  exists x. split; [|done]. apply list_elem_of_lookup. eauto.
Qed.

Lemma Forall2_elem_of_l {A B} (P : A → B → Prop) (l : list A) (k : list B) x :
  Forall2 P l k → x ∈ l → ∃ y, y ∈ k ∧ P x y.
Proof.
  intros Hall [i Hi]%list_elem_of_lookup.
  destruct (Forall2_lookup_l _ _ _ _ _ Hall Hi) as (y & Hy & HP).
  exists y. split; [|done]. apply list_elem_of_lookup. eauto.
Qed.

Lemma nodesWithHops_unfold hops t :
  nodesWithHops hops t
  = (hops, t) :: flat_map (nodesWithHops (S hops)) (tree_children t).
Proof. by destruct t. Qed.

(** Every node of a built subtree is itself the result of building some
    note of the collection, and the depth it carries is its distance from
    the top of the walk. *)
Lemma nodes_of_built_subtree fuel notes note depth t :
  buildTreeNode fuel notes note depth = Some t → note ∈ notes →
  ∀ h t', (h, t') ∈ nodesWithHops depth t →
    tree_depth t' = h ∧
    ∃ fuel' m, m ∈ notes ∧ buildTreeNode fuel' notes m h = Some t'.
Proof.
  revert note depth t.
  induction fuel as [|fuel IH]; intros note depth t Hbuild Hin h t' Hnode.
  { done. }
  destruct (buildTreeNode_Some _ _ _ _ _ Hbuild)
    as (fuel' & [= <-] & _ & Hdepth & Hchildren).
  rewrite nodesWithHops_unfold in Hnode.
  apply elem_of_cons in Hnode as [[= -> ->]|Hbelow].
  - split; [done|]. eauto.
  - apply elem_of_flat_map in Hbelow as (k & Hk & Hnode).
    destruct (Forall2_elem_of_r _ _ _ _ Hchildren Hk) as (c & Hc & Hck).
    apply elem_of_sorted_children in Hc as [Hc _].
    exact (IH c (S depth) k Hck Hc h t' Hnode).
Qed.

Lemma nodes_of_built_tree fuel notes tree :
  buildTree fuel notes = Some tree →
  ∀ h t, (h, t) ∈ treeNodes tree →
    tree_depth t = h ∧
    ∃ fuel' m, m ∈ notes ∧ buildTreeNode fuel' notes m h = Some t.
Proof.
  intros Hbuild h t Hnode. apply mapM_Some in Hbuild.
  apply elem_of_flat_map in Hnode as (r & Hr & Hnode).
  destruct (Forall2_elem_of_r _ _ _ _ Hbuild Hr) as (m & Hm & Hmr).
  unfold rootNotes in Hm. rewrite sortByPosition_Permutation in Hm.
  apply list_elem_of_filter in Hm as [_ Hm].
  by eapply nodes_of_built_subtree.
Qed.

(** Building terminates on an acyclic collection once the stack budget
    exceeds the rank of the note. *)
Lemma buildTreeNode_total notes rank bound fuel note depth :
  acyclicWithin notes rank bound →
  (rank (note_id note) < fuel)%nat →
  is_Some (buildTreeNode fuel notes note depth).
Proof.
  intros [Hrank _]. revert note depth.
  induction fuel as [|fuel IH]; intros note depth Hlt; [lia|]. simpl.
  destruct (mapM _ _) as [children|] eqn:Hchildren; simpl; [by eexists|].
  apply mapM_None in Hchildren. apply Exists_exists in Hchildren
    as (c & Hc & Hnone).
  apply elem_of_sorted_children in Hc as [Hc Hparent].
  specialize (Hrank c _ Hc Hparent).
  destruct (IH c (S depth)) as [k Hk]; [lia|]. congruence.
Qed.

Lemma buildTree_total notes rank bound fuel :
  acyclicWithin notes rank bound → (bound ≤ fuel)%nat →
  is_Some (buildTree fuel notes).
Proof.
  intros Hacyclic Hfuel. unfold buildTree.
  apply mapM_is_Some, Forall_forall. intros r Hr. simpl.
  unfold rootNotes in Hr. rewrite sortByPosition_Permutation in Hr.
  apply list_elem_of_filter in Hr as [_ Hr].
  eapply buildTreeNode_total; [done|].
  destruct Hacyclic as [_ Hbound]. specialize (Hbound r Hr). lia.
Qed.

(** Notes with equal positions keep the order of the collection. *)
Example sortByPosition_is_stable :
  note_id <$> sortByPosition
                [remoteNote "a" "A" None 1; remoteNote "b" "B" None 0;
                 remoteNote "c" "C" None 1; remoteNote "d" "D" None 0]
  = ["b"; "d"; "a"; "c"].
Proof. reflexivity. Qed.

(** Creating N1 and then its child N2 while offline gives one root, N1,
    with one child, N2, at depth 1. *)
Example offline_child_is_nested :
  (λ r, (tree_title r, tree_depth r,
         (λ c, (tree_title c, tree_depth c, tree_children c))
           <$> tree_children r))
    <$> noteTree (issueAll stubRepository sampleClock sampleId 4
                    [Create (titled "N1" None);
                     Create (titled "N2" (Some "id-0"))]
                    emptyWorld offlineState).2
  = [("N1", 0%nat, [("N2", 1%nat, [])])].
Proof. reflexivity. Qed.

Lemma chain_is_acyclic : acyclicWithin [note1; note2; note3] chainRank 3.
Proof.
  split; intros n; [intros p|]; intros Hin;
    repeat (apply elem_of_cons in Hin as [->|Hin]);
    try (by apply elem_of_nil in Hin);
    try (intros [= <-]); try done; vm_compute; lia.
Qed.

Lemma child_in_subtree fuel notes note depth r h t k :
  buildTreeNode fuel notes note depth = Some r →
  (h, t) ∈ nodesWithHops depth r → k ∈ tree_children t →
  (S h, k) ∈ nodesWithHops depth r.
Proof.
  revert note depth r.
  induction fuel as [|fuel IH]; intros note depth r Hbuild Hnode Hk; [done|].
  destruct (buildTreeNode_Some _ _ _ _ _ Hbuild)
    as (fuel' & [= <-] & _ & _ & Hchildren).
  rewrite nodesWithHops_unfold in Hnode |- *.
  apply elem_of_cons. right. apply elem_of_flat_map.
  apply elem_of_cons in Hnode as [[= -> ->]|Hbelow].
  - exists k. split; [done|]. rewrite nodesWithHops_unfold. by left.
  - apply elem_of_flat_map in Hbelow as (c & Hc & Hnode).
    destruct (Forall2_elem_of_r _ _ _ _ Hchildren Hc) as (n & _ & Hnc).
    exists c. split; [done|]. by eapply IH.
Qed.

Lemma child_in_tree fuel notes tree h t k :
  buildTree fuel notes = Some tree →
  (h, t) ∈ treeNodes tree → k ∈ tree_children t →
  (S h, k) ∈ treeNodes tree.
Proof.
  intros Hbuild Hnode Hk. apply mapM_Some in Hbuild.
  apply elem_of_flat_map in Hnode as (r & Hr & Hnode).
  destruct (Forall2_elem_of_r _ _ _ _ Hbuild Hr) as (m & _ & Hmr).
  apply elem_of_flat_map. exists r. split; [done|].
  by eapply child_in_subtree.
Qed.

(** Every reachable note is built into the tree. *)
Lemma reachable_in_tree fuel notes tree n :
  buildTree fuel notes = Some tree → reachable notes n →
  ∃ h t fuel', (h, t) ∈ treeNodes tree ∧
               buildTreeNode fuel' notes n h = Some t.
Proof.
  intros Hbuild. induction 1 as [n Hin Hroot|m n _ IH Hin Hparent].
  - assert (n ∈ rootNotes notes) as Hn.
    { unfold rootNotes. rewrite sortByPosition_Permutation.
      by apply list_elem_of_filter. }
    pose proof Hbuild as Hall. apply mapM_Some in Hall.
    destruct (Forall2_elem_of_l _ _ _ _ Hall Hn) as (r & Hr & Hnr).
    exists 0%nat, r, fuel. split; [|done].
    apply elem_of_flat_map. exists r. split; [done|].
    rewrite nodesWithHops_unfold. by left.
  - destruct IH as (h & t & fuel' & Hnode & Hmt).
    destruct (buildTreeNode_Some _ _ _ _ _ Hmt)
      as (fuel'' & _ & _ & _ & Hchildren).
    assert (n ∈ sortByPosition (childrenOf notes (note_id m))) as Hn.
    { rewrite sortByPosition_Permutation. by apply list_elem_of_filter. }
    destruct (Forall2_elem_of_l _ _ _ _ Hchildren Hn) as (k & Hk & Hnk).
    exists (S h), k, fuel''. split; [|done]. by eapply child_in_tree.
Qed.

(** Every node of a subtree built from a reachable note shows a reachable
    note. *)
Lemma subtree_nodes_reachable fuel notes note depth r :
  buildTreeNode fuel notes note depth = Some r → reachable notes note →
  ∀ h t, (h, t) ∈ nodesWithHops depth r →
    ∃ n, reachable notes n ∧ nodeView t = noteView n.
Proof.
  revert note depth r.
  induction fuel as [|fuel IH]; intros note depth r Hbuild Hreach h t Hnode.
  { done. }
  destruct (buildTreeNode_Some _ _ _ _ _ Hbuild)
    as (fuel' & [= <-] & Hview & _ & Hchildren).
  rewrite nodesWithHops_unfold in Hnode.
  apply elem_of_cons in Hnode as [[= -> ->]|Hbelow]; [by eauto|].
  apply elem_of_flat_map in Hbelow as (k & Hk & Hnode).
  destruct (Forall2_elem_of_r _ _ _ _ Hchildren Hk) as (c & Hc & Hck).
  apply elem_of_sorted_children in Hc as [Hc Hparent].
  eapply (IH c (S depth) k Hck); [|done].
  by eapply reachable_child.
Qed.

Lemma tree_nodes_reachable fuel notes tree h t :
  buildTree fuel notes = Some tree → (h, t) ∈ treeNodes tree →
  ∃ n, reachable notes n ∧ nodeView t = noteView n.
Proof.
  intros Hbuild Hnode. apply mapM_Some in Hbuild.
  apply elem_of_flat_map in Hnode as (r & Hr & Hnode).
  destruct (Forall2_elem_of_r _ _ _ _ Hbuild Hr) as (m & Hm & Hmr).
  unfold rootNotes in Hm. rewrite sortByPosition_Permutation in Hm.
  apply list_elem_of_filter in Hm as [Hroot Hm].
  eapply subtree_nodes_reachable; [done| |done].
  by apply reachable_root.
Qed.




Lemma buildNoteTree_Return stack w s w' s' :
  buildNoteTree stack w s = (Return tt, w', s') →
  w' = w ∧ ∃ tree, buildTree stack (notes s) = Some tree ∧
                   s' = set_noteTree tree s.
Proof.
  unfold buildNoteTree. monad_unfold.
  destruct (buildTree stack (notes s)) as [tree|]; [|done].
  intros [= <- <-]. eauto.
Qed.

(** C5, as the code has it: the rebuild does not look at the archived
    flag. On an acyclic collection it produces a tree; the nodes of the
    tree it stores are the views of exactly the notes reachable from the
    roots, archived ones included (their node carries the flag), and the
    flat collection is left as it was. *)
Theorem buildNoteTree_keeps_archived_notes (stack : nat) (w : World)
    (s : NotesState) :
  (∀ rank bound,
     acyclicWithin (notes s) rank bound → (bound ≤ stack)%nat →
     ∃ s', buildNoteTree stack w s = (Return tt, w, s')) ∧
  (∀ w' s',
     buildNoteTree stack w s = (Return tt, w', s') →
     notes s' = notes s ∧
     (∀ view,
        (∃ n, reachable (notes s) n ∧ noteView n = view) ↔
        (∃ h t, (h, t) ∈ treeNodes (noteTree s') ∧ nodeView t = view)) ∧
     (∀ n, reachable (notes s) n → note_is_archived n = true →
           ∃ h t, (h, t) ∈ treeNodes (noteTree s') ∧
                  nodeView t = noteView n ∧ tree_is_archived t = true)).
Proof.
  split.
  - intros rank bound Hacyclic Hfuel.
    destruct (buildTree_total _ _ _ _ Hacyclic Hfuel) as [tree Htree].
    exists (set_noteTree tree s). unfold buildNoteTree. monad_unfold.
    by rewrite Htree.
  - intros w' s' Hrun.
    apply buildNoteTree_Return in Hrun as (-> & tree & Htree & ->).
    assert (∀ n, reachable (notes s) n →
              ∃ h t, (h, t) ∈ treeNodes tree ∧ nodeView t = noteView n)
      as Hin.
    { intros n Hn.
      destruct (reachable_in_tree _ _ _ n Htree Hn)
        as (h & t & fuel' & Hnode & Hbuilt).
      exists h, t. split; [done|].
      by destruct (buildTreeNode_Some _ _ _ _ _ Hbuilt) as (_ & _ & ? & _). }
    simpl. split_and!; [done| |].
    + intros view. split.
      * intros (n & Hn & <-). by apply Hin.
      * intros (h & t & Hnode & <-).
        destruct (tree_nodes_reachable _ _ _ _ _ Htree Hnode) as (n & ? & ?).
        eauto.
    + intros n Hn Harchived. destruct (Hin n Hn) as (h & t & Hnode & Hview).
      exists h, t. split_and!; [done..|].
      injection Hview as _ _ _ _ ->. done.
Qed.

Lemma buildNoteTree_keeps_archived_notes_witness :
  ∃ h t,
    (h, t) ∈ treeNodes (noteTree (buildNoteTree 4 emptyWorld
                          (set_notes [archivedRoot] initialState)).2) ∧
    nodeView t = noteView archivedRoot ∧ tree_is_archived t = true.
Proof.
  destruct (buildNoteTree_keeps_archived_notes 4 emptyWorld
              (set_notes [archivedRoot] initialState)) as [_ Hshape].
  destruct (Hshape _ _ eq_refl) as (_ & _ & Harchived).
  apply Harchived; [|reflexivity].
  apply reachable_root; [apply list_elem_of_here|reflexivity].
Defined.

(** C5 as stated fails: a collection holding one archived root is rebuilt
    into a tree whose only node is that archived note. *)
Lemma archived_root_is_in_tree :
  ∃ w' s' t,
    buildNoteTree 4 emptyWorld (set_notes [archivedRoot] initialState)
    = (Return tt, w', s') ∧
    noteTree s' = [t] ∧ nodeView t = noteView archivedRoot ∧
    tree_is_archived t = true ∧
    ¬ (∀ h t', (h, t') ∈ treeNodes (noteTree s') → tree_is_archived t' = false).
Proof.
  eexists _, _, _. split; [reflexivity|]. split; [reflexivity|].
  split_and!; [reflexivity..|].
  intros Hall. specialize (Hall 0%nat _ (list_elem_of_here _ _)). done.
Qed.

Lemma reachable_elem_of notes n : reachable notes n → n ∈ notes.
Proof. by destruct 1. Qed.

Lemma truthy_false_inv p : truthy (Some p) = false → p = "".
Proof.
  simpl. intros Heq. apply negb_false_iff in Heq. by apply String.eqb_eq.
Qed.

(** C4, as the code has it: the roots of the tree are the notes whose
    [parent_id] is null, undefined or empty, in ascending order of
    position; a note whose non-empty [parent_id] names no note of the
    collection is no root and is nowhere in the tree. (On an acyclic
    collection the rebuild does produce a tree.) *)
Theorem buildTree_leaves_orphans_out (notes : list Note) :
  (∀ rank bound fuel,
     acyclicWithin notes rank bound → (bound ≤ fuel)%nat →
     is_Some (buildTree fuel notes)) ∧
  (∀ fuel tree,
     buildTree fuel notes = Some tree →
     nodeView <$> tree
     = noteView <$> sortByPosition
                      (filter (λ n, truthy (note_parent_id n) = false) notes) ∧
     ∀ n p,
       n ∈ notes → note_parent_id n = Some p → p ≠ "" →
       (∀ m, m ∈ notes → note_id m ≠ p) →
       ∀ h t, (h, t) ∈ treeNodes tree →
              tree_parent_id t ≠ Some p ∧ nodeView t ≠ noteView n).
Proof.
  split; [intros rank bound fuel; apply buildTree_total|].
  intros fuel tree Hbuild. split.
  - apply mapM_Some in Hbuild. fold (rootNotes notes).
    induction Hbuild as [|r k rs ks Hrk _ IH]; [done|].
    csimpl. f_equal; [|done].
    by destruct (buildTreeNode_Some _ _ _ _ _ Hrk) as (_ & _ & ? & _).
  - intros n p Hn Hparent Hnonempty Hmissing h t Hnode.
    assert (tree_parent_id t ≠ Some p) as Hno.
    { intros Htp.
      destruct (tree_nodes_reachable _ _ _ _ _ Hbuild Hnode)
        as (m & Hreach & Hview).
      assert (note_parent_id m = Some p) as Hmp.
      { injection Hview as _ _ Heq _ _. congruence. }
      destruct Hreach as [m _ Hroot|m' m Hreach' _ Hchild].
      - rewrite Hmp in Hroot. by apply truthy_false_inv in Hroot.
      - apply reachable_elem_of in Hreach'.
        apply (Hmissing m' Hreach'). congruence. }
    split; [done|]. intros Hview. apply Hno.
    injection Hview as _ _ Heq _ _. congruence.
Qed.

Lemma buildTree_leaves_orphans_out_witness :
  Forall (λ node, nodeView node.2 ≠ noteView orphan)
    (treeNodes (default [] (buildTree 4 [note1; orphan; note2]))).
Proof.
  destruct (buildTree_leaves_orphans_out [note1; orphan; note2])
    as [_ Hshape].
  destruct (Hshape 4%nat _ eq_refl) as [_ Horphan].
  apply Forall_forall. intros [h t] Hnode.
  refine (proj2 (Horphan orphan "gone" _ eq_refl _ _ h t Hnode)).
  - apply list_elem_of_further, list_elem_of_here.
  - discriminate.
  - intros m Hm. repeat (apply elem_of_cons in Hm as [->|Hm]);
      [discriminate..|by apply elem_of_nil in Hm].
Defined.

(** C4 as stated fails: a note whose parent is gone is not made a root;
    the tree built from it alone is empty. *)
Lemma orphan_is_dropped_from_tree :
  note_parent_id orphan = Some "gone" ∧
  (∀ m, m ∈ [orphan] → note_id m ≠ "gone") ∧
  buildTree 4 [orphan] = Some [].
Proof.
  split_and!; [reflexivity| |reflexivity].
  intros m Hm. apply list_elem_of_singleton in Hm as ->. discriminate.
Qed.

(** ** Moving a note *)

Lemma elem_of_concat {A} (x : A) (ls : list (list A)) :
  x ∈ concat ls ↔ ∃ l, l ∈ ls ∧ x ∈ l.
Proof.
  rewrite list_elem_of_In, in_concat. by setoid_rewrite list_elem_of_In.
Qed.

Lemma getDescendants_Some fuel notes a ds :
  getDescendants fuel notes a = Some ds →
  ∃ fuel' parts,
    fuel = S fuel' ∧ ds = concat parts ∧
    Forall2 (λ c part, ∃ below,
               getDescendants fuel' notes (note_id c) = Some below ∧
               part = c :: below)
      (childrenOf notes a) parts.
Proof.
  destruct fuel as [|fuel']; simpl; [done|].
  destruct (mapM _ _) as [parts|] eqn:Hparts; simpl; [|done].
  intros [= <-]. exists fuel', parts. split_and!; try done.
  apply mapM_Some in Hparts.
  eapply Forall2_impl; [exact Hparts|]. simpl.
  intros c part Hpart. by apply fmap_Some in Hpart.
Qed.

(** Whatever lies below [a] is in the list [getDescendants] returns. *)
Lemma getDescendants_complete notes a b :
  descendantOf notes a b →
  ∀ fuel ds, getDescendants fuel notes a = Some ds →
             ∃ d, d ∈ ds ∧ note_id d = b.
Proof.
  induction 1 as [a n Hin Hparent|a n b Hin Hparent _ IH]; intros fuel ds Hds;
    destruct (getDescendants_Some _ _ _ _ Hds)
      as (fuel' & parts & _ & -> & Hparts);
    (assert (n ∈ childrenOf notes a) as Hn
       by (by apply list_elem_of_filter));
    destruct (Forall2_elem_of_l _ _ _ _ Hparts Hn)
      as (part & Hpart & below & Hbelow & ->).
  - exists n. split; [|done]. apply elem_of_concat.
    eexists. split; [done|]. by left.
  - destruct (IH _ _ Hbelow) as (d & Hd & Hid).
    exists d. split; [|done]. apply elem_of_concat.
    eexists. split; [done|]. by right.
Qed.

Lemma getDescendants_total notes rank bound fuel a :
  acyclicWithin notes rank bound → (rank a < fuel)%nat →
  is_Some (getDescendants fuel notes a).
Proof.
  intros [Hrank _]. revert a.
  induction fuel as [|fuel IH]; intros a Hlt; [lia|]. simpl.
  destruct (mapM _ _) as [parts|] eqn:Hparts; simpl; [by eexists|].
  apply mapM_None in Hparts. apply Exists_exists in Hparts
    as (c & Hc & Hnone).
  apply list_elem_of_filter in Hc as [Hparent Hc].
  specialize (Hrank c _ Hc Hparent).
  destruct (IH (note_id c)) as [below Hbelow]; [lia|].
  by rewrite Hbelow in Hnone.
Qed.

Lemma canMoveNote_descendant notes rank bound fuel a b :
  acyclicWithin notes rank bound → (rank a < fuel)%nat →
  descendantOf notes a b →
  canMoveNote fuel notes a (Some b) = Some false.
Proof.
  intros Hacyclic Hfuel Hdesc. unfold canMoveNote.
  destruct (decide (Some a = Some b)); [done|].
  destruct (getDescendants_total _ _ _ _ a Hacyclic Hfuel) as [ds Hds].
  rewrite Hds. simpl. f_equal. apply negb_false_iff.
  destruct (getDescendants_complete _ _ _ Hdesc _ _ Hds) as (d & Hd & Hid).
  apply existsb_exists. exists d. split; [by apply list_elem_of_In|].
  apply bool_decide_eq_true. by rewrite Hid.
Qed.

Lemma moveNote_offline db isoString randomId stack a target position w s
    index existing :
  isOnline s = false →
  findNote a (notes s) = Some (index, existing) →
  ∃ r w' s',
    moveNote db isoString randomId stack a target position w s
    = (Return r, w', s') ∧
    notes s'
    = <[index := mergeUpdate existing (moveInput a target position)
                   (isoString (w_clock w))]> (notes s) ∧
    offlineQueue s'
    = offlineQueue s
      ++ [{| op_id := randomId (w_entropy w);
             op_payload := op_update (moveInput a target position);
             op_timestamp := isoString (S (w_clock w)) |}] ∧
    r = bool_decide (is_Some (buildTree stack (notes s'))).
Proof.
  intros Hoff Hfind.
  unfold moveNote, updateNote, buildNoteTree, addToOfflineQueue,
    NoteStorage_setNotes, NoteStorage_setOfflineQueue.
  monad_unfold. simpl. rewrite Hoff, Hfind. simpl. rewrite Hfind. simpl.
  destruct (buildTree _ _) as [tree|] eqn:Htree; simpl;
    eexists _, _, _; (split; [reflexivity|]); simpl; rewrite Htree;
    split_and!; done.
Qed.

(** C3, as the code has it: [moveNote] does not validate the hierarchy.
    Offline, for a note that is in the collection and any target parent (a
    descendant of the note included), it stores the note with the new
    [parent_id] and position, queues one update and answers [true] unless
    the rebuild overflows the stack. The descendant check is the separate,
    read-only [canMoveNote] of the notes hook, which on an acyclic
    collection answers [false] for every target below the note. *)
Theorem moveNote_applies_without_hierarchy_check (db : Repository)
    (isoString randomId : nat → string) (stack : nat) :
  (∀ a target position w s index existing,
     isOnline s = false →
     findNote a (notes s) = Some (index, existing) →
     ∃ r w' s',
       moveNote db isoString randomId stack a target position w s
       = (Return r, w', s') ∧
       notes s'
       = <[index := mergeUpdate existing (moveInput a target position)
                      (isoString (w_clock w))]> (notes s) ∧
       offlineQueue s'
       = offlineQueue s
         ++ [{| op_id := randomId (w_entropy w);
                op_payload := op_update (moveInput a target position);
                op_timestamp := isoString (S (w_clock w)) |}] ∧
       r = bool_decide (is_Some (buildTree stack (notes s')))) ∧
  (∀ notes rank bound fuel a b,
     acyclicWithin notes rank bound → (rank a < fuel)%nat →
     descendantOf notes a b →
     canMoveNote fuel notes a (Some b) = Some false).
Proof.
  split.
  - intros. by apply moveNote_offline.
  - intros. by eapply canMoveNote_descendant.
Qed.

Lemma moveNote_applies_without_hierarchy_check_witness :
  canMoveNote 3 [note1; note2; note3] "n1" (Some "n3") = Some false ∧
  ∃ r w' s',
    moveNote stubRepository sampleClock sampleId 4 "n1" (Some "n3") 0
      emptyWorld chainState = (Return r, w', s') ∧
    note_parent_id <$> notes s' = [Some "n3"; Some "n1"; Some "n2"] ∧
    length (offlineQueue s') = 1%nat.
Proof.
  destruct (moveNote_applies_without_hierarchy_check stubRepository
              sampleClock sampleId 4) as [Hmove Hcheck].
  split.
  - apply (Hcheck [note1; note2; note3] chainRank 3%nat 3%nat "n1" "n3"
             chain_is_acyclic); [vm_compute; lia|].
    apply (descendant_below _ _ note2); [|reflexivity|].
    { apply list_elem_of_further, list_elem_of_here. }
    apply (descendant_child _ _ note3); [|reflexivity].
    do 2 apply list_elem_of_further. apply list_elem_of_here.
  - destruct (Hmove "n1" (Some "n3") 0 emptyWorld chainState 0%nat note1
                eq_refl eq_refl) as (r & w' & s' & Hrun & Hnotes & Hqueue & _).
    exists r, w', s'. split; [exact Hrun|].
    rewrite Hnotes, Hqueue. by split.
Defined.

(** C3 as stated fails: in the chain n1 > n2 > n3, moving n1 under its
    descendant n3 is accepted, and the collection and the queue change. *)
Lemma move_under_descendant_is_applied :
  descendantOf (notes chainState) "n1" "n3" ∧
  ∃ w' s',
    moveNote stubRepository sampleClock sampleId 4 "n1" (Some "n3") 0
      emptyWorld chainState = (Return true, w', s') ∧
    notes s' ≠ notes chainState ∧
    note_parent_id <$> notes s' = [Some "n3"; Some "n1"; Some "n2"] ∧
    length (offlineQueue s') = 1%nat.
Proof.
  split.
  - apply (descendant_below _ _ note2); [|reflexivity|].
    { apply list_elem_of_further, list_elem_of_here. }
    apply (descendant_child _ _ note3); [|reflexivity].
    do 2 apply list_elem_of_further. apply list_elem_of_here.
  - eexists _, _. split; [reflexivity|]. split_and!; [|reflexivity..].
    discriminate.
Qed.

(** * Further properties of the store and the hooks *)

(** ** Finding notes *)

Lemma findNote_Some id l index n :
  findNote id l = Some (index, n) →
  l !! index = Some n ∧ note_id n = id ∧
  ∀ j m, l !! j = Some m → (j < index)%nat → note_id m ≠ id.
Proof. unfold findNote. by rewrite list_find_Some. Qed.

Lemma findNote_None id l :
  findNote id l = None ↔ ∀ n, n ∈ l → note_id n ≠ id.
Proof. unfold findNote. by rewrite list_find_None, Forall_forall. Qed.

Lemma findNote_insert id l index n m :
  findNote id l = Some (index, n) → note_id m = id →
  findNote id (<[index := m]> l) = Some (index, m).
Proof.
  intros (Hat & _ & Hfirst)%findNote_Some Hid.
  apply list_find_Some. split_and!; [|done|].
  - apply list_lookup_insert_eq. by eapply lookup_lt_Some.
  - intros j k Hj Hlt. rewrite list_lookup_insert_ne in Hj by lia. eauto.
Qed.

Lemma findNote_distinct l index n :
  NoDup (note_id <$> l) → l !! index = Some n →
  findNote (note_id n) l = Some (index, n).
Proof.
  intros Hnodup Hat. apply list_find_Some. split_and!; [done..|].
  intros j m Hj Hlt Hid.
  assert (j = index); [|lia].
  eapply NoDup_lookup; [exact Hnodup| |];
    rewrite list_lookup_fmap; [by rewrite Hj|by rewrite Hat, Hid].
Qed.

(** ** What [updateNote] does offline *)

Section UpdateOffline.

Variable db : Repository.
Variable isoString : nat → string.
Variable randomId : nat → string.

Lemma updateNote_offline_found input w s index existing :
  isOnline s = false →
  findNote (upd_id input) (notes s) = Some (index, existing) →
  let merged := mergeUpdate existing input (isoString (w_clock w)) in
  updateNote db isoString randomId input w s
  = (Return (Some merged), (afterOfflineUpdate isoString randomId w s input index merged).1,
     (afterOfflineUpdate isoString randomId w s input index merged).2).
Proof.
  intros Hoff Hfind.
  unfold updateNote, addToOfflineQueue, NoteStorage_setNotes,
    NoteStorage_setOfflineQueue, afterOfflineUpdate.
  monad_unfold. simpl. rewrite Hoff, Hfind. simpl. rewrite Hfind. simpl.
  destruct w as [calls [available ? ? ?] clock entropy]. simpl.
  by destruct available.
Qed.

Lemma updateNote_offline_missing input w s :
  isOnline s = false →
  findNote (upd_id input) (notes s) = None →
  updateNote db isoString randomId input w s
  = (Return None, w, set_error (Some "Note not found") s).
Proof.
  intros Hoff Hfind. unfold updateNote. monad_unfold. simpl.
  by rewrite Hoff, Hfind.
Qed.

End UpdateOffline.

(** ** Selection *)

Lemma selectAt_inside index n w s :
  notes s !! index = Some n →
  selectAt (Z.of_nat index) w s
  = (Return tt, w, set_selectedNoteId (Some (note_id n)) s).
Proof.
  intros Hat. unfold selectAt, selectNote. monad_unfold.
  destruct (Z.of_nat index <? 0)%Z eqn:Hneg; [apply Z.ltb_lt in Hneg; lia|].
  by rewrite Nat2Z.id, Hat.
Qed.

Lemma currentIndex_distinct s index n :
  distinctIds (notes s) → notes s !! index = Some n →
  selectedNoteId s = Some (note_id n) →
  currentIndex s = Z.of_nat index.
Proof.
  intros [Hnodup Hnonempty] Hat Hsel. unfold currentIndex, findIndex.
  rewrite Hsel. simpl.
  assert (note_id n ≠ "") as Hne.
  { eapply (proj1 (Forall_forall _ _) Hnonempty), list_elem_of_lookup_2, Hat. }
  apply String.eqb_neq in Hne. rewrite Hne. simpl.
  by rewrite (findNote_distinct _ _ _ Hnodup Hat).
Qed.

Lemma bind_Return {A B} (m : M A) (k : A → M B) a w s w' s' :
  m w s = (Return a, w', s') → bind m k w s = k a w' s'.
Proof. intros Hrun. unfold bind. by rewrite Hrun. Qed.

Lemma selectNextNote_unfold w s :
  length (notes s) ≠ 0%nat →
  selectNextNote w s
  = selectAt (if (currentIndex s <? Z.of_nat (length (notes s)) - 1)%Z
              then (currentIndex s + 1)%Z else 0%Z) w s.
Proof. intros Hlen. unfold selectNextNote, bind, get. by rewrite decide_False. Qed.

Lemma selectPrevNote_unfold w s :
  length (notes s) ≠ 0%nat →
  selectPrevNote w s
  = selectAt (if (0 <? currentIndex s)%Z
              then (currentIndex s - 1)%Z
              else (Z.of_nat (length (notes s)) - 1)%Z) w s.
Proof. intros Hlen. unfold selectPrevNote, bind, get. by rewrite decide_False. Qed.

(** X1: Stepping to the next note and back, or to the previous note and
    forth, returns to the note that was selected: on a collection with
    distinct, non-empty ids the two moves undo each other, wrap-around at
    either end included, and nothing but the selection is ever written. *)
Theorem selectNextNote_selectPrevNote_undo (w : World) (s : NotesState)
    (index : nat) (n : Note) :
  distinctIds (notes s) →
  notes s !! index = Some n →
  selectedNoteId s = Some (note_id n) →
  (selectNextNote ;; selectPrevNote) w s = (Return tt, w, s) ∧
  (selectPrevNote ;; selectNextNote) w s = (Return tt, w, s).
Proof.
  intros Hdistinct Hat Hsel.
  assert (index < length (notes s))%nat as Hlt by (by eapply lookup_lt_Some).
  assert (∀ j m, notes s !! j = Some m →
            currentIndex (set_selectedNoteId (Some (note_id m)) s) = Z.of_nat j)
    as Hcur.
  { intros j m Hj. by apply (currentIndex_distinct _ j m). }
  assert (∀ m, set_selectedNoteId (Some (note_id n))
                 (set_selectedNoteId m s) = s) as Hback.
  { intros m. destruct s. simpl in *. by rewrite Hsel. }
  pose proof (currentIndex_distinct s index n Hdistinct Hat Hsel) as Hindex.
  assert (∀ j m, notes s !! j = Some m →
            selectAt (Z.of_nat j) w s
            = (Return tt, w, set_selectedNoteId (Some (note_id m)) s)) as Hgo.
  { intros j m Hj. by apply selectAt_inside. }
  assert (∀ m, selectAt (Z.of_nat index) w (set_selectedNoteId m s)
               = (Return tt, w, s)) as Hreturn.
  { intros m. rewrite (selectAt_inside _ n) by done. by rewrite Hback. }
  split.
  - rewrite (bind_Return _ _ tt w s w
               (set_selectedNoteId
                  (Some (note_id (default n (notes s !!
                     (if decide (index < length (notes s) - 1)%nat
                      then S index else 0%nat))))) s)).
    + destruct (decide (index < length (notes s) - 1)%nat) as [Hin|Hlast].
      * destruct (lookup_lt_is_Some_2 (notes s) (S index)) as [m Hm]; [lia|].
        rewrite Hm. simpl. rewrite selectPrevNote_unfold by (simpl; lia).
        rewrite (Hcur _ _ Hm). simpl notes.
        replace (0 <? Z.of_nat (S index))%Z with true
          by (symmetry; apply Z.ltb_lt; lia).
        replace (Z.of_nat (S index) - 1)%Z with (Z.of_nat index) by lia.
        apply Hreturn.
      * destruct (lookup_lt_is_Some_2 (notes s) 0) as [m Hm]; [lia|].
        rewrite Hm. simpl. rewrite selectPrevNote_unfold by (simpl; lia).
        rewrite (Hcur _ _ Hm). simpl.
        replace (Z.of_nat (length (notes s)) - 1)%Z with (Z.of_nat index)
          by lia.
        apply Hreturn.
    + rewrite selectNextNote_unfold by lia. rewrite Hindex.
      destruct (decide (index < length (notes s) - 1)%nat) as [Hin|Hlast].
      * destruct (lookup_lt_is_Some_2 (notes s) (S index)) as [m Hm]; [lia|].
        rewrite Hm. simpl.
        replace (Z.of_nat index <? Z.of_nat (length (notes s)) - 1)%Z
          with true by (symmetry; apply Z.ltb_lt; lia).
        replace (Z.of_nat index + 1)%Z with (Z.of_nat (S index)) by lia.
        by apply Hgo.
      * destruct (lookup_lt_is_Some_2 (notes s) 0) as [m Hm]; [lia|].
        rewrite Hm. simpl.
        replace (Z.of_nat index <? Z.of_nat (length (notes s)) - 1)%Z
          with false by (symmetry; apply Z.ltb_ge; lia).
        by apply (Hgo 0%nat).
  - rewrite (bind_Return _ _ tt w s w
               (set_selectedNoteId
                  (Some (note_id (default n (notes s !!
                     (if decide (0 < index)%nat
                      then (index - 1)%nat
                      else (length (notes s) - 1)%nat))))) s)).
    + destruct (decide (0 < index)%nat) as [Hpos|Hfirst].
      * destruct (lookup_lt_is_Some_2 (notes s) (index - 1)) as [m Hm]; [lia|].
        rewrite Hm. simpl. rewrite selectNextNote_unfold by (simpl; lia).
        rewrite (Hcur _ _ Hm). simpl notes.
        replace (Z.of_nat (index - 1) <? Z.of_nat (length (notes s)) - 1)%Z
          with true by (symmetry; apply Z.ltb_lt; lia).
        replace (Z.of_nat (index - 1) + 1)%Z with (Z.of_nat index) by lia.
        apply Hreturn.
      * destruct (lookup_lt_is_Some_2 (notes s) (length (notes s) - 1))
          as [m Hm]; [lia|].
        rewrite Hm. simpl. rewrite selectNextNote_unfold by (simpl; lia).
        rewrite (Hcur _ _ Hm). simpl notes.
        replace (Z.of_nat (length (notes s) - 1)
                 <? Z.of_nat (length (notes s)) - 1)%Z
          with false by (symmetry; apply Z.ltb_ge; lia).
        assert (index = 0%nat) as Hzero by lia. rewrite Hzero in Hreturn.
        apply Hreturn.
    + rewrite selectPrevNote_unfold by lia. rewrite Hindex.
      destruct (decide (0 < index)%nat) as [Hpos|Hfirst].
      * destruct (lookup_lt_is_Some_2 (notes s) (index - 1)) as [m Hm]; [lia|].
        rewrite Hm. simpl.
        replace (0 <? Z.of_nat index)%Z with true
          by (symmetry; apply Z.ltb_lt; lia).
        replace (Z.of_nat index - 1)%Z with (Z.of_nat (index - 1)) by lia.
        by apply Hgo.
      * destruct (lookup_lt_is_Some_2 (notes s) (length (notes s) - 1))
          as [m Hm]; [lia|].
        rewrite Hm. simpl.
        replace (0 <? Z.of_nat index)%Z with false
          by (symmetry; apply Z.ltb_ge; lia).
        replace (Z.of_nat (length (notes s)) - 1)%Z
          with (Z.of_nat (length (notes s) - 1)) by lia.
        by apply Hgo.
Qed.

Lemma chain_has_distinct_ids : distinctIds [note1; note2; note3].
Proof. apply (bool_decide_unpack _). by vm_compute. Qed.

Lemma selectNextNote_selectPrevNote_undo_witness :
  (selectNextNote ;; selectPrevNote) emptyWorld chainState
  = (Return tt, emptyWorld, chainState).
Proof.
  exact (proj1 (selectNextNote_selectPrevNote_undo emptyWorld chainState
                  1%nat note2 chain_has_distinct_ids eq_refl eq_refl)).
Defined.

Lemma currentIndex_range s :
  (-1 ≤ currentIndex s < Z.of_nat (length (notes s)))%Z.
Proof.
  unfold currentIndex, findIndex.
  destruct (selectedNoteId s) as [id|]; [|lia].
  destruct (truthy (Some id)); [|lia].
  destruct (findNote id (notes s)) as [[index n]|] eqn:Hfind; [|lia].
  apply findNote_Some in Hfind as (Hat & _). apply lookup_lt_Some in Hat. lia.
Qed.

(** X2: Stepping never leaves the collection and never fails: on a non-empty
    collection [selectNextNote] and [selectPrevNote] select the id of a
    note of the collection, whatever was selected before; with no usable
    selection (none, an empty id, or an id that is no longer there) the
    next note is the first one and the previous note is the last one. On
    an empty collection both do nothing. *)
Theorem selection_steps_stay_in_collection (w : World) (s : NotesState) :
  (length (notes s) = 0%nat →
   selectNextNote w s = (Return tt, w, s) ∧
   selectPrevNote w s = (Return tt, w, s)) ∧
  (length (notes s) ≠ 0%nat →
   ∃ n p,
     n ∈ notes s ∧ p ∈ notes s ∧
     selectNextNote w s
     = (Return tt, w, set_selectedNoteId (Some (note_id n)) s) ∧
     selectPrevNote w s
     = (Return tt, w, set_selectedNoteId (Some (note_id p)) s) ∧
     (currentIndex s = (-1)%Z →
      head (notes s) = Some n ∧ last (notes s) = Some p)).
Proof.
  split.
  - intros Hlen. unfold selectNextNote, selectPrevNote, bind, get.
    rewrite !decide_True by done. by split.
  - intros Hlen. pose proof (currentIndex_range s) as Hrange.
    set (next := if (currentIndex s <? Z.of_nat (length (notes s)) - 1)%Z
                 then (currentIndex s + 1)%Z else 0%Z).
    set (prev := if (0 <? currentIndex s)%Z
                 then (currentIndex s - 1)%Z
                 else (Z.of_nat (length (notes s)) - 1)%Z).
    assert (0 ≤ next < Z.of_nat (length (notes s)))%Z as Hnext.
    { unfold next.
      destruct (currentIndex s <? Z.of_nat (length (notes s)) - 1)%Z eqn:Hcmp;
        [apply Z.ltb_lt in Hcmp|]; lia. }
    assert (0 ≤ prev < Z.of_nat (length (notes s)))%Z as Hprev.
    { unfold prev.
      destruct (0 <? currentIndex s)%Z eqn:Hcmp;
        [apply Z.ltb_lt in Hcmp|]; lia. }
    destruct (lookup_lt_is_Some_2 (notes s) (Z.to_nat next)) as [n Hn]; [lia|].
    destruct (lookup_lt_is_Some_2 (notes s) (Z.to_nat prev)) as [p Hp]; [lia|].
    exists n, p. split_and!.
    + by eapply list_elem_of_lookup_2.
    + by eapply list_elem_of_lookup_2.
    + rewrite selectNextNote_unfold by done. fold next.
      rewrite <- (Z2Nat.id next) by lia. by apply selectAt_inside.
    + rewrite selectPrevNote_unfold by done. fold prev.
      rewrite <- (Z2Nat.id prev) by lia. by apply selectAt_inside.
    + intros Hnone. unfold next, prev in *. rewrite Hnone in *.
      replace (-1 <? Z.of_nat (length (notes s)) - 1)%Z with true in Hn
        by (symmetry; apply Z.ltb_lt; lia).
      simpl in Hn, Hp. split.
      * by rewrite head_lookup.
      * rewrite last_lookup. rewrite <- Hp. f_equal. lia.
Qed.

Lemma selection_steps_stay_in_collection_witness :
  selectNextNote emptyWorld (set_selectedNoteId (Some "gone") chainState)
  = (Return tt, emptyWorld, set_selectedNoteId (Some "n1") chainState) ∧
  selectPrevNote emptyWorld (set_selectedNoteId (Some "gone") chainState)
  = (Return tt, emptyWorld, set_selectedNoteId (Some "n3") chainState).
Proof.
  destruct (selection_steps_stay_in_collection emptyWorld
              (set_selectedNoteId (Some "gone") chainState)) as [_ Hstep].
  destruct Hstep as (n & p & _ & _ & Hnext & Hprev & Hends); [done|].
  destruct Hends as [Hhead Hlast]; [reflexivity|].
  injection Hhead as <-. injection Hlast as <-. by split.
Defined.

(** ** Updates and the shortcuts built on them *)

Section Shortcuts.

Variable db : Repository.
Variable isoString : nat → string.
Variable randomId : nat → string.
Variable stack : nat.

(** One offline update that finds its note: what it returns and what the
    next action will see. *)
Lemma updateNote_offline_step input w s index existing :
  isOnline s = false →
  findNote (upd_id input) (notes s) = Some (index, existing) →
  ∃ w' s',
    updateNote db isoString randomId input w s
    = (Return (Some (mergeUpdate existing input (isoString (w_clock w)))),
       w', s') ∧
    notes s'
    = <[index := mergeUpdate existing input (isoString (w_clock w))]> (notes s) ∧
    findNote (upd_id input) (notes s')
    = Some (index, mergeUpdate existing input (isoString (w_clock w))) ∧
    length (offlineQueue s') = S (length (offlineQueue s)) ∧
    isOnline s' = false ∧
    selectedNoteId s' = selectedNoteId s ∧
    w_calls w' = w_calls w.
Proof.
  intros Hoff Hfind.
  rewrite (updateNote_offline_found db isoString randomId input w s index
             existing Hoff Hfind).
  eexists _, _. split; [reflexivity|]. cbn.
  split_and!; try done.
  - by eapply findNote_insert.
  - rewrite length_app. simpl. lia.
Qed.

Lemma fmap_insert_same {B} (f : Note → B) (l : list Note) index n m :
  l !! index = Some n → f m = f n → f <$> <[index := m]> l = f <$> l.
Proof.
  intros Hat Hsame. rewrite list_fmap_insert, Hsame.
  apply list_insert_id. by rewrite list_lookup_fmap, Hat.
Qed.

Lemma updateNote_returns input w s :
  ∃ r w' s', updateNote db isoString randomId input w s = (Return r, w', s').
Proof.
  unfold updateNote, addToOfflineQueue, NoteStorage_setNotes,
    NoteStorage_setOfflineQueue, notes_update.
  monad_unfold. simpl.
  destruct (isOnline s); simpl.
  - destruct (db_update db (w_calls w) input); by eexists _, _, _.
  - destruct (findNote (upd_id input) (notes s)) as [[index n]|];
      by eexists _, _, _.
Qed.

(** X4: [updateNote] never throws and never adds, removes or moves a note:
    the collection keeps its length and the selection, and offline it
    keeps its list of ids too, whatever the input; offline the call
    returns [null] exactly when no note has the id. *)
Theorem updateNote_keeps_collection_shape (input : UpdateNoteInput)
    (w : World) (s : NotesState) :
  ∃ r w' s',
    updateNote db isoString randomId input w s = (Return r, w', s') ∧
    length (notes s') = length (notes s) ∧
    selectedNoteId s' = selectedNoteId s ∧
    isOnline s' = isOnline s ∧
    (isOnline s = false →
     note_id <$> notes s' = note_id <$> notes s ∧
     (r = None ↔ findNote (upd_id input) (notes s) = None) ∧
     w_calls w' = w_calls w).
Proof.
  destruct (isOnline s) eqn:Hon.
  - unfold updateNote, NoteStorage_setNotes, notes_update.
    monad_unfold. simpl. rewrite Hon.
    destruct (db_update db (w_calls w) input) as [reply|e]; simpl.
    + destruct (findNote (upd_id input) (notes s)) as [[index n]|];
        eexists _, _, _; (split; [reflexivity|]); simpl;
        rewrite ?length_insert; by split_and!.
    + eexists _, _, _. split; [reflexivity|]. simpl. by split_and!.
  - destruct (findNote (upd_id input) (notes s)) as [[index n]|] eqn:Hfind.
    + destruct (updateNote_offline_step input w s index n Hon Hfind)
        as (w' & s' & Hrun & Hnotes & _ & _ & Hoff & Hsel & Hcalls).
      eexists _, w', s'. split; [exact Hrun|]. rewrite Hnotes, length_insert.
      pose proof Hfind as (Hat & Hid & _)%findNote_Some.
      split_and!; try done. intros _. split_and!; [|by split|done].
      by apply (fmap_insert_same note_id _ _ n).
    + rewrite (updateNote_offline_missing db isoString randomId input w s Hon Hfind).
      eexists _, _, _. split; [reflexivity|]. by split_and!.
Qed.

(** X5: Offline, [archiveNote] answers [true] exactly when a note has the id;
    it then sets the flag of the first such note and of no other, and a
    following [unarchiveNote] clears it again; ids stay as they are and
    each call queues one update. With no such note it answers [false] and
    neither the collection nor the queue changes. *)
Theorem archiveNote_then_unarchiveNote_offline (id : string) (w : World)
    (s : NotesState) :
  isOnline s = false →
  (∀ index n,
     findNote id (notes s) = Some (index, n) →
     ∃ w1 s1 w2 s2,
       archiveNote db isoString randomId id w s = (Return true, w1, s1) ∧
       note_is_archived <$> notes s1
       = <[index := true]> (note_is_archived <$> notes s) ∧
       unarchiveNote db isoString randomId id w1 s1 = (Return true, w2, s2) ∧
       note_is_archived <$> notes s2
       = <[index := false]> (note_is_archived <$> notes s) ∧
       note_id <$> notes s2 = note_id <$> notes s ∧
       length (offlineQueue s2) = S (S (length (offlineQueue s)))) ∧
  (findNote id (notes s) = None →
   ∃ w' s',
     archiveNote db isoString randomId id w s = (Return false, w', s') ∧
     notes s' = notes s ∧ offlineQueue s' = offlineQueue s).
Proof.
  intros Hoff. split.
  - intros index n Hfind.
    destruct (updateNote_offline_step (archivedInput id true) w s index n
                Hoff Hfind)
      as (w1 & s1 & Hrun1 & Hnotes1 & Hfind1 & Hlen1 & Hoff1 & _).
    destruct (updateNote_offline_step (archivedInput id false) w1 s1 index _
                Hoff1 Hfind1)
      as (w2 & s2 & Hrun2 & Hnotes2 & _ & Hlen2 & _).
    exists w1, s1, w2, s2. unfold archiveNote, unarchiveNote, bind.
    rewrite Hrun1, Hrun2. rewrite Hnotes2, Hnotes1.
    apply findNote_Some in Hfind as (Hat & Hid & _).
    split_and!; try done.
    + by rewrite list_fmap_insert.
    + by rewrite list_insert_insert_eq, list_fmap_insert.
    + rewrite list_insert_insert_eq.
      by apply (fmap_insert_same note_id _ _ n).
    + lia.
  - intros Hfind. unfold archiveNote, bind.
    rewrite (updateNote_offline_missing db isoString randomId
               (archivedInput id true) w s Hoff Hfind).
    by eexists _, _.
Qed.

(** X6: Offline, toggling the favorite flag of a note twice gives every note
    the flag it had, and one toggle flips the flag of the first note with
    the id only; for an id that is not there [toggleFavorite] answers
    [false] and touches nothing. *)
Theorem toggleFavorite_twice_offline (id : string) (w : World) (s : NotesState) :
  isOnline s = false →
  (∀ index n,
     findNote id (notes s) = Some (index, n) →
     ∃ w1 s1 w2 s2,
       toggleFavorite db isoString randomId id w s = (Return true, w1, s1) ∧
       note_is_favorite <$> notes s1
       = <[index := negb (note_is_favorite n)]> (note_is_favorite <$> notes s) ∧
       toggleFavorite db isoString randomId id w1 s1 = (Return true, w2, s2) ∧
       note_is_favorite <$> notes s2 = note_is_favorite <$> notes s) ∧
  (findNote id (notes s) = None →
   toggleFavorite db isoString randomId id w s = (Return false, w, s)).
Proof.
  intros Hoff. split.
  - intros index n Hfind.
    destruct (updateNote_offline_step
                (favoriteInput id (negb (note_is_favorite n))) w s index n
                Hoff Hfind)
      as (w1 & s1 & Hrun1 & Hnotes1 & Hfind1 & _ & Hoff1 & _).
    destruct (updateNote_offline_step
                (favoriteInput id (negb (negb (note_is_favorite n)))) w1 s1
                index _ Hoff1 Hfind1)
      as (w2 & s2 & Hrun2 & Hnotes2 & _).
    exists w1, s1, w2, s2. unfold toggleFavorite, bind, get.
    rewrite Hfind, Hrun1. simpl in Hfind1. rewrite Hfind1. simpl.
    rewrite Hrun2, Hnotes2, Hnotes1.
    apply findNote_Some in Hfind as (Hat & Hid & _).
    split_and!; try done.
    + by rewrite list_fmap_insert.
    + rewrite list_insert_insert_eq.
      apply (fmap_insert_same note_is_favorite _ _ n); [done|].
      simpl. by rewrite negb_involutive.
  - intros Hfind. unfold toggleFavorite, bind, get. by rewrite Hfind.
Qed.

Lemma filter_keeps_all {A} (P : A → Prop) `{!∀ x, Decision (P x)} (l : list A) :
  Forall P l → filter P l = l.
Proof.
  induction 1 as [|x l Hx _ IH]; [done|].
  by rewrite filter_cons_True, IH.
Qed.

(** X7: [addTag] refuses silently, in either mode and without a repository
    call, when the note is missing or already carries the tag. Offline, a
    tag that is added is appended to the tags of the first note with the
    id, so tag lists without repetitions stay so, and removing it again
    restores every tag list. *)
Theorem addTag_then_removeTag_offline (noteId tag : string) (w : World)
    (s : NotesState) :
  ((findNote noteId (notes s) = None ∨
    ∃ index n, findNote noteId (notes s) = Some (index, n) ∧ tag ∈ note_tags n) →
   addTag db isoString randomId noteId tag w s = (Return false, w, s)) ∧
  (isOnline s = false →
   ∀ index n,
     findNote noteId (notes s) = Some (index, n) → tag ∉ note_tags n →
     ∃ w1 s1 w2 s2,
       addTag db isoString randomId noteId tag w s = (Return true, w1, s1) ∧
       note_tags <$> notes s1
       = <[index := note_tags n ++ [tag]]> (note_tags <$> notes s) ∧
       (Forall (λ m, NoDup (note_tags m)) (notes s) →
        Forall (λ m, NoDup (note_tags m)) (notes s1)) ∧
       removeTag db isoString randomId noteId tag w1 s1 = (Return true, w2, s2) ∧
       note_tags <$> notes s2 = note_tags <$> notes s).
Proof.
  split.
  - intros [Hfind|(index & n & Hfind & Htag)]; unfold addTag, bind, get;
      rewrite Hfind; [done|]. by rewrite bool_decide_eq_true_2.
  - intros Hoff index n Hfind Htag.
    destruct (updateNote_offline_step
                (tagsInput noteId (note_tags n ++ [tag])) w s index n
                Hoff Hfind)
      as (w1 & s1 & Hrun1 & Hnotes1 & Hfind1 & _ & Hoff1 & _).
    simpl in Hfind1.
    destruct (updateNote_offline_step
                (tagsInput noteId (filter (λ t, t ≠ tag) (note_tags n ++ [tag])))
                w1 s1 index _ Hoff1 Hfind1)
      as (w2 & s2 & Hrun2 & Hnotes2 & _).
    exists w1, s1, w2, s2. unfold addTag, removeTag, bind, get.
    rewrite Hfind, bool_decide_eq_false_2 by done. rewrite Hrun1.
    rewrite Hfind1. simpl. rewrite Hrun2, Hnotes2, Hnotes1.
    pose proof Hfind as (Hat & Hid & _)%findNote_Some.
    split_and!; try done.
    + by rewrite list_fmap_insert.
    + intros Hall. apply Forall_insert; [done|]. simpl.
      apply NoDup_app. split_and!.
      * by eapply (proj1 (Forall_forall _ _) Hall), list_elem_of_lookup_2.
      * intros t Ht ->%list_elem_of_singleton. done.
      * apply NoDup_singleton.
    + rewrite list_insert_insert_eq.
      apply (fmap_insert_same note_tags _ _ n); [done|]. simpl.
      rewrite filter_app, filter_cons_False, filter_nil, app_nil_r
        by (by intros ?).
      apply filter_keeps_all, Forall_forall. by intros t Ht ->.
Qed.

(** X8: An online mutation that the repository rejects is dropped: nothing is
    stored, nothing is selected and nothing is queued for a later replay;
    the action answers [null] (or [false]) and only the message is kept in
    [error]. *)
Theorem rejected_online_mutation_is_dropped (w : World) (s : NotesState)
    (e : Thrown) :
  isOnline s = true →
  (∀ input,
     db_create db (w_calls w) input = Throw e →
     ∃ w' s',
       createNote db isoString randomId stack input w s = (Return None, w', s') ∧
       notes s' = notes s ∧ offlineQueue s' = offlineQueue s ∧
       selectedNoteId s' = selectedNoteId s ∧ loading s' = false ∧
       error s' = Some (messageOr "Failed to create note" e) ∧
       w_calls w' = w_calls w ++ [CallCreate input]) ∧
  (∀ input,
     db_update db (w_calls w) input = Throw e →
     ∃ w' s',
       updateNote db isoString randomId input w s = (Return None, w', s') ∧
       notes s' = notes s ∧ offlineQueue s' = offlineQueue s ∧
       error s' = Some (messageOr "Failed to update note" e) ∧
       w_calls w' = w_calls w ++ [CallUpdate input]) ∧
  (∀ id,
     db_delete db (w_calls w) id = Throw e →
     ∃ w' s',
       deleteNote db isoString randomId stack id w s = (Return false, w', s') ∧
       notes s' = notes s ∧ offlineQueue s' = offlineQueue s ∧
       selectedNoteId s' = selectedNoteId s ∧
       error s' = Some (messageOr "Failed to delete note" e) ∧
       w_calls w' = w_calls w ++ [CallDelete id]).
Proof.
  intros Hon. split_and!.
  - intros input Hreject. unfold createNote, notes_create. monad_unfold. simpl.
    rewrite Hon, Hreject. by eexists _, _.
  - intros input Hreject. unfold updateNote, notes_update. monad_unfold. simpl.
    rewrite Hon, Hreject. by eexists _, _.
  - intros id Hreject. unfold deleteNote, notes_delete. monad_unfold. simpl.
    rewrite Hon, Hreject. by eexists _, _.
Qed.

(** X9: Offline, [moveNote] and [deleteNote] do not check that the note
    exists. Moving an id that is not in the collection changes neither
    notes nor queue, leaves 'Note not found' in [error], and still answers
    [true] when the rebuild goes through; deleting such an id leaves the
    collection as it is and still queues a delete operation. *)
Theorem missing_note_is_not_reported_offline (id : string) (w : World)
    (s : NotesState) :
  isOnline s = false →
  findNote id (notes s) = None →
  (∀ target position,
     ∃ w' s',
       moveNote db isoString randomId stack id target position w s
       = (Return (bool_decide (is_Some (buildTree stack (notes s)))), w', s') ∧
       notes s' = notes s ∧ offlineQueue s' = offlineQueue s ∧
       error s' = Some "Note not found") ∧
  (∃ r w' s',
     deleteNote db isoString randomId stack id w s = (Return r, w', s') ∧
     notes s' = notes s ∧
     offlineQueue s'
     = offlineQueue s
       ++ [{| op_id := randomId (w_entropy w); op_payload := op_delete id;
              op_timestamp := isoString (w_clock w) |}]).
Proof.
  intros Hoff Hfind. split.
  - intros target position. unfold moveNote, try_catch, bind at 1.
    rewrite (updateNote_offline_missing db isoString randomId
               (moveInput id target position) w s Hoff Hfind).
    unfold buildNoteTree. monad_unfold. simpl.
    destruct (buildTree stack (notes s)); by eexists _, _.
  - assert (filter (λ n, note_id n ≠ id) (notes s) = notes s) as Hkeep.
    { apply filter_keeps_all, Forall_forall.
      by apply (proj1 (findNote_None _ _)). }
    unfold deleteNote, buildNoteTree, addToOfflineQueue,
      NoteStorage_setNotes, NoteStorage_setOfflineQueue.
    monad_unfold. simpl. rewrite Hoff. simpl.
    destruct (decide (selectedNoteId s = Some id)); simpl;
      destruct (buildTree _ _); simpl; eexists _, _, _;
      (split; [reflexivity|]); simpl; by rewrite Hkeep.
Qed.

(** X10: After a structural action that reports success, the stored tree is
    the tree of the stored collection: [createNote] answering a note,
    [deleteNote] answering [true] and [moveNote] answering [true] all end
    with [noteTree] rebuilt from the notes they leave. A created note is
    the last note of the collection and becomes the selection. *)
Theorem successful_actions_leave_tree_in_step (w w' : World)
    (s s' : NotesState) :
  (∀ input n,
     createNote db isoString randomId stack input w s = (Return (Some n), w', s') →
     buildTree stack (notes s') = Some (noteTree s') ∧
     notes s' = notes s ++ [n] ∧
     selectedNoteId s' = Some (note_id n) ∧
     loading s' = false ∧ error s' = None) ∧
  (∀ id,
     deleteNote db isoString randomId stack id w s = (Return true, w', s') →
     buildTree stack (notes s') = Some (noteTree s')) ∧
  (∀ id target position,
     moveNote db isoString randomId stack id target position w s
     = (Return true, w', s') →
     buildTree stack (notes s') = Some (noteTree s')).
Proof.
  split_and!.
  - intros input n.
    unfold createNote, buildNoteTree, addToOfflineQueue, NoteStorage_setNotes,
      NoteStorage_setOfflineQueue, notes_create.
    monad_unfold. simpl.
    destruct (isOnline s); simpl.
    + destruct (db_create db (w_calls w) input); simpl; [|done].
      destruct (buildTree _ _) eqn:Htree; simpl; [|done].
      intros [= <- <- <-]. simpl. rewrite Htree. by split_and!.
    + destruct (buildTree _ _) eqn:Htree; simpl; [|done].
      intros [= <- <- <-]. simpl. rewrite Htree. by split_and!.
  - intros id.
    unfold deleteNote, buildNoteTree, addToOfflineQueue, NoteStorage_setNotes,
      NoteStorage_setOfflineQueue, notes_delete.
    monad_unfold. simpl.
    destruct (isOnline s); simpl.
    + destruct (db_delete db (w_calls w) id); simpl; [|done].
      destruct (decide (selectedNoteId s = Some id)); simpl;
        destruct (buildTree _ _) eqn:Htree; simpl; try done;
        intros [= <- <-]; simpl; by rewrite Htree.
    + destruct (decide (selectedNoteId s = Some id)); simpl;
        destruct (buildTree _ _) eqn:Htree; simpl; try done;
        intros [= <- <-]; simpl; by rewrite Htree.
  - intros id target position. unfold moveNote, try_catch, bind at 1.
    destruct (updateNote_returns (moveInput id target position) w s)
      as (r & w1 & s1 & ->).
    unfold buildNoteTree. monad_unfold.
    destruct (buildTree stack (notes s1)) eqn:Htree; [|done].
    intros [= <- <-]. simpl. by rewrite Htree.
Qed.

(** X11: Duplicating an id that is not in the collection answers [null] and
    does nothing. Offline, a duplicate is appended and selected: it takes
    title (with ' (Copy)' appended), content, parent, tags and metadata
    from the original, and never its position, archived or favorite
    flag; it is 'pending', and one create operation is queued for it. *)
Theorem duplicateNote_copies_content_not_flags (id : string) (w : World)
    (s : NotesState) :
  (findNote id (notes s) = None →
   duplicateNote db isoString randomId stack id w s = (Return None, w, s)) ∧
  (isOnline s = false →
   ∀ index original,
     findNote id (notes s) = Some (index, original) →
     ∃ r w' s' copy,
       duplicateNote db isoString randomId stack id w s = (Return r, w', s') ∧
       notes s' = notes s ++ [copy] ∧
       selectedNoteId s' = Some (note_id copy) ∧
       note_id copy = randomId (w_entropy w) ∧
       note_title copy = note_title original +:+ " (Copy)" ∧
       note_content copy = note_content original ∧
       note_tags copy = note_tags original ∧
       note_metadata copy = note_metadata original ∧
       note_parent_id copy
       = (if truthy (note_parent_id original)
          then note_parent_id original else None) ∧
       note_position copy = 0 ∧
       note_is_archived copy = false ∧
       note_is_favorite copy = false ∧
       note_sync_status copy = pending ∧
       (∃ operation,
          offlineQueue s' = offlineQueue s ++ [operation] ∧
          op_payload operation = op_create (duplicateInput original)) ∧
       (r = Some copy ∨ r = None)).
Proof.
  split.
  - intros Hfind. unfold duplicateNote, bind, get. by rewrite Hfind.
  - intros Hoff index original Hfind. unfold duplicateNote, bind at 1, get at 1.
    rewrite Hfind.
    unfold createNote, buildNoteTree, addToOfflineQueue, NoteStorage_setNotes,
      NoteStorage_setOfflineQueue.
    monad_unfold. simpl. rewrite Hoff. simpl.
    destruct (buildTree _ _); simpl; eexists _, _, _, _;
      (split; [reflexivity|]); simpl; split_and!; eauto.
Qed.

End Shortcuts.

(** ** Fetching and the two sync entry points *)

Section Cycles.

Variable db : Repository.
Variable isoString : nat → string.
Variable stack : nat.

Lemma try_catch_Return {A} (body : M A) (handler : Thrown → M A) a w s w' s' :
  body w s = (Return a, w', s') →
  try_catch body handler w s = (Return a, w', s').
Proof. intros Hrun. unfold try_catch. by rewrite Hrun. Qed.

Lemma processOfflineQueue_returns w s :
  ∃ w' s',
    processOfflineQueue db w s = (Return tt, w', s') ∧
    offlineQueue s' = [] ∧
    w_calls w' = w_calls w ++ map callOf (offlineQueue s) ∧
    ls_available (w_storage w') = ls_available (w_storage w) ∧
    notes s' = notes s ∧ isOnline s' = isOnline s ∧
    syncStatus s' = syncStatus s ∧ selectedNoteId s' = selectedNoteId s.
Proof.
  destruct (decide (offlineQueue s = [])) as [Hnil|Hne].
  - exists w, s. rewrite processOfflineQueue_nil by done.
    rewrite Hnil. simpl. rewrite app_nil_r. by split_and!.
  - unfold processOfflineQueue, bind at 1, get.
    rewrite decide_False by (by intros ?%length_zero_iff_nil).
    destruct (forEachOperation_effect db (offlineQueue s) w s)
      as (w1 & Hrun & Hcalls & Hstorage & _).
    rewrite (bind_Return _ _ _ _ _ _ _ Hrun).
    unfold clearOfflineQueue, NoteStorage_setOfflineQueue. monad_unfold.
    eexists _, _. split; [reflexivity|]. simpl. rewrite <- Hstorage.
    destruct (ls_available (w_storage w1)) eqn:Havailable; simpl;
      by split_and!.
Qed.

Lemma fetchNotes_returns filter w s :
  ∃ w' s',
    fetchNotes db isoString stack filter w s = (Return tt, w', s') ∧
    loading s' = false ∧
    offlineQueue s' = offlineQueue s ∧ isOnline s' = isOnline s ∧
    syncStatus s' = syncStatus s ∧ selectedNoteId s' = selectedNoteId s ∧
    ls_available (w_storage w') = ls_available (w_storage w) ∧
    w_calls w'
    = w_calls w ++ (if isOnline s then [CallGetAll filter] else []).
Proof.
  unfold fetchNotes, buildNoteTree, notes_getAll, NoteStorage_setNotes,
    NoteStorage_getNotes.
  monad_unfold. simpl.
  destruct (isOnline s) eqn:Hon; simpl.
  - destruct (db_getAll db (w_calls w) filter) as [fetched|e]; simpl.
    + destruct (buildTree stack fetched); simpl; eexists _, _;
        (split; [reflexivity|]); simpl;
        destruct (ls_available (w_storage w)) eqn:Havailable; simpl;
        by split_and!.
    + eexists _, _. split; [reflexivity|]. simpl. by split_and!.
  - destruct (buildTree _ _); simpl; eexists _, _;
      (split; [reflexivity|]); simpl; rewrite ?app_nil_r; by split_and!.
Qed.

(** X12: [fetchNotes] never throws and always ends with [loading] off, the
    queue and the selection untouched; it asks the repository for the notes
    exactly once while online and not at all while offline. An accepted
    [getAll] whose result can be built into a tree ends with the collection
    equal to what the repository returned, the tree rebuilt from it, no
    error and a fresh [lastSyncAt]; a rejected [getAll] ends with the
    message in [error] and with [lastSyncAt] and the tree as they were. *)
Theorem fetchNotes_settles_without_throwing (filter : NotesFilter) (w : World)
    (s : NotesState) :
  ∃ w' s',
    fetchNotes db isoString stack filter w s = (Return tt, w', s') ∧
    loading s' = false ∧ offlineQueue s' = offlineQueue s ∧
    selectedNoteId s' = selectedNoteId s ∧
    w_calls w'
    = w_calls w ++ (if isOnline s then [CallGetAll filter] else []) ∧
    (isOnline s = true →
     (∀ fetched tree,
        db_getAll db (w_calls w) filter = Return fetched →
        buildTree stack fetched = Some tree →
        notes s' = fetched ∧ noteTree s' = tree ∧ error s' = None ∧
        lastSyncAt s' = Some (isoString (w_clock w))) ∧
     (∀ e,
        db_getAll db (w_calls w) filter = Throw e →
        error s' = Some (messageOr "Failed to fetch notes" e) ∧
        lastSyncAt s' = lastSyncAt s ∧ noteTree s' = noteTree s)).
Proof.
  unfold fetchNotes, buildNoteTree, notes_getAll, NoteStorage_setNotes,
    NoteStorage_getNotes.
  monad_unfold. simpl.
  destruct (isOnline s) eqn:Hon; simpl.
  - destruct (db_getAll db (w_calls w) filter) as [fetched|e]; simpl.
    + destruct (buildTree stack fetched) as [tree|] eqn:Htree; simpl;
        eexists _, _; (split; [reflexivity|]); simpl;
        destruct (ls_available (w_storage w)) eqn:Havailable; simpl;
        split_and!; try done; intros _; (split; [|done]);
        intros ? ? [= <-]; rewrite Htree; intros [= <-]; by split_and!.
    + eexists _, _. split; [reflexivity|]. simpl. split_and!; try done.
      intros _. split; [done|]. by intros ? [= <-].
  - destruct (buildTree _ _); simpl; eexists _, _;
      (split; [reflexivity|]); simpl; rewrite ?app_nil_r; by split_and!.
Qed.

(** X13: The store's own [syncWithCloud] cannot end in 'error': while online
    it always finishes with status 'synced', an empty queue and a fresh
    [lastSyncAt], having replayed every queued operation and asked for the
    notes once, whatever the repository answered; while offline it does
    nothing at all. *)
Theorem syncWithCloud_always_ends_synced (w : World) (s : NotesState) :
  (isOnline s = false →
   syncWithCloud db isoString stack w s = (Return tt, w, s)) ∧
  (isOnline s = true →
   ∃ w' s',
     syncWithCloud db isoString stack w s = (Return tt, w', s') ∧
     syncStatus s' = synced ∧
     offlineQueue s' = [] ∧
     is_Some (lastSyncAt s') ∧
     (ls_available (w_storage w) = true →
      ls_last_sync (w_storage w') = lastSyncAt s') ∧
     w_calls w'
     = w_calls w ++ map callOf (offlineQueue s) ++ [CallGetAll empty_filter]).
Proof.
  split; intros Hon; unfold syncWithCloud, bind at 1, get at 1; rewrite Hon;
    [done|]. simpl.
  unfold bind at 1, set at 1.
  destruct (processOfflineQueue_returns w (set_syncStatus syncing s))
    as (w1 & s1 & Hdrain & Hq1 & Hcalls1 & Hst1 & _ & Hon1 & _).
  destruct (fetchNotes_returns empty_filter w1 s1)
    as (w2 & s2 & Hfetch & _ & Hq2 & Hon2 & _ & _ & Hst2 & Hcalls2).
  eexists _, _. split.
  - apply try_catch_Return.
    rewrite (bind_Return _ _ _ _ _ _ _ Hdrain).
    rewrite (bind_Return _ _ _ _ _ _ _ Hfetch).
    unfold storage_write. monad_unfold. reflexivity.
  - simpl. split_and!; [done|congruence|by eexists| |].
    + intros Havailable. rewrite Hst2, Hst1. simpl. by rewrite Havailable.
    + rewrite Hst2, Hst1. simpl in *. rewrite Hon1, Hon in Hcalls2.
      destruct (ls_available (w_storage w)); simpl;
        by rewrite Hcalls2, Hcalls1, <- app_assoc.
Qed.

Lemma when_queued_drain w s :
  when (bool_decide (0 < length (offlineQueue s))%nat)
    (processOfflineQueue db) w s
  = processOfflineQueue db w s.
Proof.
  destruct (offlineQueue s) as [|operation rest] eqn:Hqueue.
  - rewrite processOfflineQueue_nil by done. done.
  - rewrite bool_decide_eq_true_2 by (simpl; lia). done.
Qed.

Lemma sync_connected h w s :
  isOnline s = true → db_checkConnection db (w_calls w) = true →
  ∃ w' s',
    sync db isoString stack h w s
    = (Return {| hook_error := None; syncProgress := 100;
                 retryCountRef := 0%nat;
                 retryTimeoutRef := retryTimeoutRef h;
                 timeouts := timeouts h; cleared := cleared h |}, w', s') ∧
    syncStatus s' = synced ∧ offlineQueue s' = [] ∧
    w_calls w'
    = w_calls w ++ [CallCheckConnection] ++ map callOf (offlineQueue s)
      ++ [CallGetAll empty_filter].
Proof.
  intros Hon Hconnected. unfold sync, bind at 1, get at 1. rewrite Hon. simpl.
  set (w0 := set_w_calls (w_calls w ++ [CallCheckConnection]) w).
  set (s0 := set_syncStatus syncing s).
  destruct (processOfflineQueue_returns w0 s0)
    as (w1 & s1 & Hdrain & Hq1 & Hcalls1 & _ & _ & Hon1 & _).
  destruct (fetchNotes_returns empty_filter w1 s1)
    as (w2 & s2 & Hfetch & _ & Hq2 & _ & _ & _ & _ & Hcalls2).
  rewrite <- when_queued_drain in Hdrain.
  eexists _, _. split.
  - apply try_catch_Return.
    unfold setSyncStatus, checkConnection, await.
    unfold bind at 1, set at 1. unfold bind at 1. rewrite Hconnected. simpl.
    unfold bind at 1, ret at 1. unfold bind at 1, get at 1.
    fold w0 s0.
    rewrite (bind_Return _ _ _ _ _ _ _ Hdrain).
    rewrite (bind_Return _ _ _ _ _ _ _ Hfetch).
    unfold NoteStorage_setLastSync, storage_write. monad_unfold. reflexivity.
  - simpl. split_and!; [done|congruence|].
    simpl in Hon1. rewrite Hon1, Hon in Hcalls2.
    destruct (ls_available (w_storage w2)); simpl;
      rewrite Hcalls2, Hcalls1; simpl; by rewrite <- !app_assoc.
Qed.

(** The callback of a render that has seen the current snapshot. *)
Lemma sync_is_syncFrom_current h w s :
  sync db isoString stack h w s
  = syncFrom db isoString stack (isOnline s) (offlineQueue s) h w s.
Proof.
  unfold sync, syncFrom, setSyncStatus, checkConnection. monad_unfold.
  destruct (isOnline s); simpl; [|done].
  by destruct (db_checkConnection db (w_calls w)).
Qed.

(** X14: A cycle of the hook's [sync] callback that finds the backend
    reachable always completes: the store ends 'synced', the hook's error
    is cleared and the retry counter is back at 0 with no timer armed. The
    queue is drained only if the render that created the callback had seen
    a non-empty queue: then every operation queued in the store is
    replayed and the queue ends empty. A callback from a render that saw an
    empty queue replays nothing and leaves the operations queued since
    then in place, although the store says 'synced'; a callback from a
    render that saw the store offline does nothing at all. *)
Theorem syncFrom_drains_only_what_its_render_saw
    (renderQueue : list OfflineOperation) (h : SyncHook) (w : World)
    (s : NotesState) :
  syncFrom db isoString stack false renderQueue h w s = (Return h, w, s) ∧
  (db_checkConnection db (w_calls w) = true →
   ∃ h' w' s',
     syncFrom db isoString stack true renderQueue h w s
     = (Return h', w', s') ∧
     retryCountRef h' = 0%nat ∧ hook_error h' = None ∧
     timeouts h' = timeouts h ∧
     syncStatus s' = synced ∧
     (renderQueue ≠ [] →
      offlineQueue s' = [] ∧
      w_calls w'
      = w_calls w ++ [CallCheckConnection] ++ map callOf (offlineQueue s)
        ++ (if isOnline s then [CallGetAll empty_filter] else [])) ∧
     (renderQueue = [] →
      offlineQueue s' = offlineQueue s ∧
      w_calls w'
      = w_calls w ++ [CallCheckConnection]
        ++ (if isOnline s then [CallGetAll empty_filter] else []))).
Proof.
  split; [done|]. intros Hconnected. unfold syncFrom. simpl.
  set (w0 := set_w_calls (w_calls w ++ [CallCheckConnection]) w).
  set (s0 := set_syncStatus syncing s).
  assert (∀ body : M SyncHook,
            try_catch
              (setSyncStatus syncing ;;
               do isConnected <- checkConnection db;
               (if negb isConnected
                then throw (ErrorObj "No connection to database")
                else ret tt) ;;
               body) (λ e, setSyncStatus error_status ;;
                           ret (scheduleRetry
                                  {| hook_error := Some (messageOr "Sync failed" e);
                                     syncProgress := 0;
                                     retryCountRef := retryCountRef h;
                                     retryTimeoutRef := retryTimeoutRef h;
                                     timeouts := timeouts h;
                                     cleared := cleared h |})) w s
            = try_catch body
                (λ e, setSyncStatus error_status ;;
                      ret (scheduleRetry
                             {| hook_error := Some (messageOr "Sync failed" e);
                                syncProgress := 0;
                                retryCountRef := retryCountRef h;
                                retryTimeoutRef := retryTimeoutRef h;
                                timeouts := timeouts h;
                                cleared := cleared h |})) w0 s0) as Hstart.
  { intros body. unfold try_catch, setSyncStatus, checkConnection, await.
    unfold bind at 1, set at 1. unfold bind at 1. rewrite Hconnected. simpl.
    unfold bind at 1, ret at 1. done. }
  rewrite Hstart. clear Hstart.
  destruct renderQueue as [|operation rest].
  - destruct (fetchNotes_returns empty_filter w0 s0)
      as (w2 & s2 & Hfetch & _ & Hq2 & _ & _ & _ & _ & Hcalls2).
    eexists _, _, _. split.
    + apply try_catch_Return. unfold when. simpl.
      unfold bind at 1, ret at 1.
      rewrite (bind_Return _ _ _ _ _ _ _ Hfetch).
      unfold NoteStorage_setLastSync, storage_write. monad_unfold.
      reflexivity.
    + simpl. split_and!; [done..| |]; [done|]. intros _. split; [done|].
      destruct (ls_available (w_storage w2)); simpl;
        rewrite Hcalls2; simpl; by rewrite <- !app_assoc.
  - destruct (processOfflineQueue_returns w0 s0)
      as (w1 & s1 & Hdrain & Hq1 & Hcalls1 & _ & _ & Hon1 & _).
    destruct (fetchNotes_returns empty_filter w1 s1)
      as (w2 & s2 & Hfetch & _ & Hq2 & _ & _ & _ & _ & Hcalls2).
    eexists _, _, _. split.
    + apply try_catch_Return.
      rewrite bool_decide_eq_true_2 by (simpl; lia). unfold when.
      rewrite (bind_Return _ _ _ _ _ _ _ Hdrain).
      rewrite (bind_Return _ _ _ _ _ _ _ Hfetch).
      unfold NoteStorage_setLastSync, storage_write. monad_unfold.
      reflexivity.
    + simpl. split_and!; [done..| |done]. intros _.
      split; [congruence|]. simpl in Hon1. rewrite Hon1 in Hcalls2.
      destruct (ls_available (w_storage w2)); simpl;
        rewrite Hcalls2, Hcalls1; simpl; by rewrite <- !app_assoc.
Qed.

Lemma sync_step_bounded h w s :
  (retryCountRef h ≤ RETRY_ATTEMPTS)%nat →
  ∃ h' w' s',
    sync db isoString stack h w s = (Return h', w', s') ∧
    (retryCountRef h' ≤ RETRY_ATTEMPTS)%nat ∧
    (timeouts h' = timeouts h ∨
     ∃ k, (k < RETRY_ATTEMPTS)%nat ∧ timeouts h' = timeouts h ++ [backoff k]) ∧
    cleared h' = cleared h.
Proof.
  intros Hbound. destruct (isOnline s) eqn:Hon.
  - destruct (db_checkConnection db (w_calls w)) eqn:Hconnected.
    + destruct (sync_connected h w s Hon Hconnected) as (w' & s' & -> & _).
      eexists _, _, _. split; [reflexivity|]. simpl.
      split_and!; [lia|by left|done].
    + rewrite (sync_unreachable db isoString stack h w s Hon Hconnected).
      eexists _, _, _. split; [reflexivity|].
      unfold scheduleRetry. simpl.
      destruct (decide (RETRY_ATTEMPTS ≤ retryCountRef h)%nat); simpl.
      * split_and!; [lia|by left|done].
      * split_and!; [lia| |done]. right. exists (retryCountRef h).
        split; [lia|done].
  - exists h, w, s. unfold sync, bind, get. rewrite Hon. simpl.
    split_and!; [done|done|by left|done].
Qed.

(** X15: None of the hook's entry points can throw or push the retry counter
    over [RETRY_ATTEMPTS]: [sync] (from a counter within the limit),
    [forceSync] and [retryFailedSync] each arm at most one timer, whose
    delay is [RETRY_DELAY * 2 ^ k] for some [k < RETRY_ATTEMPTS], and
    [resetSync] puts the counter to 0, marks the store 'synced' and
    empties the queue without a single repository call. *)
Theorem hook_retry_counter_stays_bounded (h : SyncHook) (w : World)
    (s : NotesState) :
  (retryCountRef h ≤ RETRY_ATTEMPTS)%nat →
  Forall (λ entry : SyncHook → M SyncHook,
            ∃ h' w' s',
              entry h w s = (Return h', w', s') ∧
              (retryCountRef h' ≤ RETRY_ATTEMPTS)%nat ∧
              (timeouts h' = timeouts h ∨
               ∃ k, (k < RETRY_ATTEMPTS)%nat ∧
                    timeouts h' = timeouts h ++ [RETRY_DELAY * 2 ^ Z.of_nat k]))
    [sync db isoString stack; forceSync db isoString stack;
     retryFailedSync db isoString stack] ∧
  ∃ h' w' s',
    resetSync h w s = (Return h', w', s') ∧
    retryCountRef h' = 0%nat ∧ timeouts h' = timeouts h ∧
    syncStatus s' = synced ∧ offlineQueue s' = [] ∧ notes s' = notes s ∧
    w_calls w' = w_calls w.
Proof.
  intros Hbound. split.
  - repeat apply Forall_cons_2; [| | |apply Forall_nil_2].
    + destruct (sync_step_bounded h w s Hbound)
        as (h' & w' & s' & Hrun & Hcount & Htimers & _).
      by exists h', w', s'.
    + unfold forceSync.
      destruct (sync_step_bounded (resetRetryCount h) w s)
        as (h' & w' & s' & Hrun & Hcount & Htimers & _); [simpl; lia|].
      by exists h', w', s'.
    + unfold retryFailedSync.
      destruct (sync_step_bounded (resetRetryCount (clearRetryTimeout h)) w s)
        as (h' & w' & s' & Hrun & Hcount & Htimers & _); [simpl; lia|].
      exists h', w', s'. split_and!; [done..|].
      unfold clearRetryTimeout in Htimers.
      by destruct (retryTimeoutRef h).
  - unfold resetSync, setSyncStatus, clearOfflineQueue,
      NoteStorage_setOfflineQueue, clearRetryTimeout.
    monad_unfold. simpl.
    eexists _, _, _. split; [reflexivity|].
    destruct (retryTimeoutRef h), (ls_available (w_storage w)); simpl;
      by split_and!.
Qed.

End Cycles.

(** X16: Draining twice in a row is the same as draining once: the second pass
    finds the queue empty and does nothing, whatever the repository
    answered during the first. *)
Theorem processOfflineQueue_is_idempotent (db : Repository) (w : World)
    (s : NotesState) :
  (processOfflineQueue db ;; processOfflineQueue db) w s
  = processOfflineQueue db w s.
Proof.
  destruct (processOfflineQueue_returns db w s)
    as (w' & s' & Hrun & Hempty & _).
  rewrite (bind_Return _ _ _ _ _ _ _ Hrun), Hrun.
  by apply processOfflineQueue_nil.
Qed.

(** ** The hierarchy helpers of the notes hook *)

(** Only notes below [a] are in the list [getDescendants] returns. *)
Lemma getDescendants_sound fuel notes a ds d :
  getDescendants fuel notes a = Some ds → d ∈ ds →
  d ∈ notes ∧ descendantOf notes a (note_id d).
Proof.
  revert a ds d. induction fuel as [|fuel IH]; intros a ds d Hds Hd; [done|].
  destruct (getDescendants_Some _ _ _ _ Hds)
    as (fuel' & parts & [= <-] & -> & Hparts).
  apply elem_of_concat in Hd as (part & Hpart & Hd).
  destruct (Forall2_elem_of_r _ _ _ _ Hparts Hpart)
    as (c & Hc & below & Hbelow & ->).
  apply list_elem_of_filter in Hc as [Hparent Hc].
  apply elem_of_cons in Hd as [->|Hd].
  - split; [done|]. by apply descendant_child.
  - destruct (IH _ _ _ Hbelow Hd) as [Hin Hdesc].
    split; [done|]. by apply (descendant_below _ _ c).
Qed.

(** X17: On an acyclic collection [canMoveNote] decides the hierarchy check
    exactly: it allows a move precisely when the target is not the note
    itself and is not the id of a note below it; in particular a move to
    the top level is always allowed. *)
Theorem canMoveNote_allows_exactly_the_safe_targets (notes : list Note)
    (rank : string → nat) (bound fuel : nat) (a : string)
    (target : option string) :
  acyclicWithin notes rank bound → (rank a < fuel)%nat →
  ∃ allowed,
    canMoveNote fuel notes a target = Some allowed ∧
    (allowed = true ↔
     target ≠ Some a ∧ ∀ b, target = Some b → ¬ descendantOf notes a b) ∧
    (target = None → allowed = true).
Proof.
  intros Hacyclic Hfuel. unfold canMoveNote.
  destruct (decide (Some a = target)) as [<-|Hself].
  { exists false. split_and!; [done| |done]. split; [done|]. by intros [? _]. }
  destruct (getDescendants_total _ _ _ _ a Hacyclic Hfuel) as [ds Hds].
  rewrite Hds. simpl. eexists. split; [reflexivity|].
  rewrite negb_true_iff, <- not_true_iff_false, existsb_exists.
  split_and!.
  - split.
    + intros Hnone. split; [done|]. intros b -> Hdesc.
      destruct (getDescendants_complete _ _ _ Hdesc _ _ Hds) as (d & Hd & Hid).
      apply Hnone. exists d. split; [by apply list_elem_of_In|].
      apply bool_decide_eq_true. by rewrite Hid.
    + intros [_ Hsafe] (d & Hd%list_elem_of_In & Hhit%bool_decide_eq_true).
      destruct (getDescendants_sound _ _ _ _ _ Hds Hd) as [_ Hdesc].
      by apply (Hsafe (note_id d)).
  - intros -> (d & _ & Hhit%bool_decide_eq_true). done.
Qed.

(** X18: A note can be deleted, in the eyes of [canDeleteNote], exactly when
    the node the tree shows for its id has no children; and
    [getNoteChildren] lists, as notes, what that node lists as children. *)
Theorem canDeleteNote_means_leaf_in_tree (notes : list Note) (fuel : nat)
    (tree : list NoteTree) (h : nat) (t : NoteTree) :
  buildTree fuel notes = Some tree →
  (h, t) ∈ treeNodes tree →
  nodeView <$> tree_children t
  = noteView <$> getNoteChildren notes (tree_id t) ∧
  (canDeleteNote notes (tree_id t) = true ↔ tree_children t = []).
Proof.
  intros Hbuild Hnode.
  destruct (nodes_of_built_tree _ _ _ Hbuild h t Hnode)
    as (_ & fuel' & m & _ & Hmt).
  destruct (buildTreeNode_Some _ _ _ _ _ Hmt)
    as (fuel'' & _ & Hview & _ & Hchildren).
  assert (tree_id t = note_id m) as -> by (by injection Hview).
  unfold canDeleteNote, getNoteChildren.
  split.
  - clear -Hchildren. induction Hchildren as [|c k cs ks Hck _ IH]; [done|].
    csimpl. f_equal; [|done].
    by destruct (buildTreeNode_Some _ _ _ _ _ Hck) as (_ & _ & ? & _).
  - rewrite bool_decide_eq_true, (Forall2_length _ _ _ Hchildren).
    apply length_zero_iff_nil.
Qed.

Lemma getNoteById_Some notes id n :
  getNoteById notes id = Some n → n ∈ notes ∧ note_id n = id.
Proof.
  unfold getNoteById. intros ([index m] & Hfind & ->)%fmap_Some.
  apply findNote_Some in Hfind as (Hat & Hid & _).
  split; [by eapply list_elem_of_lookup_2|done].
Qed.

Lemma parentOf_Some notes c p :
  parentOf notes c = Some p →
  p ∈ notes ∧ note_parent_id c = Some (note_id p).
Proof.
  unfold parentOf. destruct (note_parent_id c) as [q|]; [|done].
  destruct (truthy (Some q)); [|done].
  intros [Hin <-]%getNoteById_Some. done.
Qed.

Lemma walkToRoot_Some fuel notes current path result :
  walkToRoot fuel notes current path = Some result →
  (∀ c, current = Some c → c ∈ notes) →
  ∃ up, result = reverse up ++ path ∧ head up = current ∧
        isUpward notes up ∧ Forall (λ n, n ∈ notes) up.
Proof.
  revert current path.
  induction fuel as [|fuel IH]; intros [c|] path Hwalk Hin; simpl in Hwalk;
    try done; try (injection Hwalk as <-; by exists []).
  destruct (IH _ _ Hwalk) as (up & -> & Hhead & Hup & Hall).
  { intros p Hp. by apply parentOf_Some in Hp as [? _]. }
  exists (c :: up). rewrite reverse_cons, <- app_assoc. simpl.
  split_and!; [done..|]. constructor; [|done]. by apply Hin.
Qed.

Lemma upward_length_bounded notes rank bound up c :
  acyclicWithin notes rank bound →
  head up = Some c → isUpward notes up → Forall (λ n, n ∈ notes) up →
  (length up + rank (note_id c) ≤ bound)%nat.
Proof.
  intros [Hrank Hbound]. revert c.
  induction up as [|n rest IH]; intros c Hhead Hup Hall; [done|].
  injection Hhead as ->. destruct Hup as [Hparent Hup].
  apply Forall_cons in Hall as [Hc Hall].
  destruct rest as [|p rest'].
  - specialize (Hbound c Hc). simpl. lia.
  - simpl in Hparent. apply parentOf_Some in Hparent as [_ Hparent].
    specialize (Hrank c _ Hc Hparent).
    specialize (IH p eq_refl Hup Hall). simpl in *. lia.
Qed.

Lemma walkToRoot_total notes rank bound fuel c path :
  acyclicWithin notes rank bound → c ∈ notes →
  (bound ≤ fuel + rank (note_id c))%nat →
  is_Some (walkToRoot fuel notes (Some c) path).
Proof.
  intros Hacyclic. pose proof Hacyclic as [Hrank Hbound].
  revert c path. induction fuel as [|fuel IH]; intros c path Hc Hfuel.
  { specialize (Hbound c Hc). lia. }
  simpl. destruct (parentOf notes c) as [p|] eqn:Hparent.
  - apply parentOf_Some in Hparent as [Hp Hparent].
    specialize (Hrank c _ Hc Hparent). apply IH; [done|lia].
  - destruct fuel; by eexists.
Qed.

(** X19: [getNotePath] gives the chain of parents of a note, root first: read
    from its end, every note of the path has the next one as the parent
    the hook finds for it, the first note has no parent to be found, and
    the last one is the note asked for; an id that is not in the
    collection gives the empty path. On an acyclic collection the loop
    ends, and the path is no longer than the bound on parent chains. *)
Theorem getNotePath_follows_parents (notes : list Note) (noteId : string) :
  (∀ fuel path,
     getNotePath fuel notes noteId = Some path →
     isUpward notes (reverse path) ∧
     last path = getNoteById notes noteId ∧
     Forall (λ n, n ∈ notes) path) ∧
  (getNoteById notes noteId = None →
   ∀ fuel, getNotePath fuel notes noteId = Some []) ∧
  (∀ rank bound fuel,
     acyclicWithin notes rank bound → (bound ≤ fuel)%nat →
     ∃ path, getNotePath fuel notes noteId = Some path ∧
             (length path ≤ bound)%nat).
Proof.
  split_and!.
  - intros fuel path Hpath. unfold getNotePath in Hpath.
    destruct (walkToRoot_Some _ _ _ _ _ Hpath) as (up & -> & Hhead & Hup & Hall).
    { intros c Hc. by apply getNoteById_Some in Hc as [? _]. }
    rewrite app_nil_r, reverse_involutive, last_reverse.
    split_and!; [done..|]. by apply Forall_reverse.
  - intros Hnone fuel. unfold getNotePath. rewrite Hnone. by destruct fuel.
  - intros rank bound fuel Hacyclic Hfuel. unfold getNotePath.
    destruct (getNoteById notes noteId) as [c|] eqn:Hfound.
    + pose proof Hfound as [Hc _]%getNoteById_Some.
      destruct (walkToRoot_total notes rank bound fuel c [] Hacyclic Hc)
        as [path Hpath]; [lia|].
      exists path. split; [done|].
      destruct (walkToRoot_Some _ _ _ _ _ Hpath) as (up & -> & Hhead & Hup & Hall).
      { by intros ? [= <-]. }
      rewrite app_nil_r, length_reverse.
      pose proof (upward_length_bounded _ _ _ _ _ Hacyclic Hhead Hup Hall). lia.
    + exists []. split; [by destruct fuel|simpl; lia].
Qed.

(** Going down a built subtree, depth grows no faster than rank falls. *)
Lemma subtree_depth_rank notes rank bound fuel note depth r :
  acyclicWithin notes rank bound →
  buildTreeNode fuel notes note depth = Some r → note ∈ notes →
  ∀ h t, (h, t) ∈ nodesWithHops depth r →
    tree_path t = [] ∧
    ∃ m, m ∈ notes ∧ tree_id t = note_id m ∧
         (h + rank (note_id m) ≤ depth + rank (note_id note))%nat.
Proof.
  intros Hacyclic. pose proof Hacyclic as [Hrank _]. revert note depth r.
  induction fuel as [|fuel IH]; intros note depth r Hbuild Hin h t Hnode.
  { done. }
  pose proof Hbuild as Hsame.
  destruct (buildTreeNode_Some _ _ _ _ _ Hbuild)
    as (fuel' & [= <-] & Hview & _ & Hchildren).
  rewrite nodesWithHops_unfold in Hnode.
  apply elem_of_cons in Hnode as [[= -> ->]|Hbelow].
  - split.
    + simpl in Hsame. destruct (mapM _ _); simpl in Hsame; [|done].
      by injection Hsame as <-.
    + exists note. split_and!; [done| |lia]. by injection Hview.
  - apply elem_of_flat_map in Hbelow as (k & Hk & Hnode).
    destruct (Forall2_elem_of_r _ _ _ _ Hchildren Hk) as (c & Hc & Hck).
    apply elem_of_sorted_children in Hc as [Hc Hparent].
    destruct (IH c (S depth) k Hck Hc h t Hnode) as (Hpath & m & Hm & Hid & Hle).
    split; [done|]. exists m. split_and!; [done..|].
    specialize (Hrank c _ Hc Hparent). lia.
Qed.

(** X20: On an acyclic collection no node of the tree is deeper than the bound
    on parent chains allows, and no node ever carries a path: [path] is
    the empty list throughout. *)
Theorem tree_depth_stays_below_chain_bound (notes : list Note)
    (rank : string → nat) (bound fuel : nat) (tree : list NoteTree) :
  acyclicWithin notes rank bound →
  buildTree fuel notes = Some tree →
  ∀ h t, (h, t) ∈ treeNodes tree →
         (tree_depth t < bound)%nat ∧ tree_path t = [].
Proof.
  intros Hacyclic Hbuild h t Hnode.
  destruct (nodes_of_built_tree _ _ _ Hbuild h t Hnode) as (Hdepth & _).
  apply mapM_Some in Hbuild.
  apply elem_of_flat_map in Hnode as (r & Hr & Hnode).
  destruct (Forall2_elem_of_r _ _ _ _ Hbuild Hr) as (root & Hroot & Hbuilt).
  unfold rootNotes in Hroot. rewrite sortByPosition_Permutation in Hroot.
  apply list_elem_of_filter in Hroot as [_ Hroot].
  destruct (subtree_depth_rank _ _ _ _ _ _ _ Hacyclic Hbuilt Hroot h t Hnode)
    as (Hpath & m & _ & _ & Hle).
  split; [|done]. destruct Hacyclic as [_ Hbound].
  specialize (Hbound root Hroot). lia.
Qed.

(** ** The localStorage mirror *)

(** X21: The stored queue behaves as a list keyed by operation id: what is
    read back after [addToOfflineQueue] is the old queue with the item at
    its end, [removeFromOfflineQueue] drops every item with the id and
    keeps the others in order, and removing an item whose id was not in the
    queue right after adding it gives the old queue back. With
    localStorage unavailable nothing is stored and every read is empty. *)
Theorem NoteStorage_queue_add_then_remove (item : OfflineOperation)
    (w : World) (s : NotesState) :
  let stored w := (NoteStorage_getOfflineQueue w s).1.1 in
  let added := (NoteStorage_addToOfflineQueue item w s).1.2 in
  let removed :=
    (NoteStorage_removeFromOfflineQueue (op_id item) added s).1.2 in
  (ls_available (w_storage w) = false →
   added = w ∧ removed = w ∧ stored w = Return []) ∧
  (ls_available (w_storage w) = true →
   ∃ queue,
     stored w = Return queue ∧
     stored added = Return (queue ++ [item]) ∧
     stored removed
     = Return (filter (λ other, op_id other ≠ op_id item) queue) ∧
     (Forall (λ other, op_id other ≠ op_id item) queue →
      stored removed = Return queue)).
Proof.
  unfold NoteStorage_addToOfflineQueue, NoteStorage_removeFromOfflineQueue,
    NoteStorage_getOfflineQueue, NoteStorage_setOfflineQueue.
  monad_unfold. simpl. split; intros Havailable; rewrite Havailable; simpl.
  - by rewrite Havailable.
  - eexists. split; [reflexivity|]. split; [reflexivity|].
    rewrite filter_app, filter_cons_False, filter_nil, app_nil_r
      by (by intros ?).
    split; [done|]. intros Hfresh. by rewrite filter_keeps_all.
Qed.

Lemma NoteStorage_queue_add_then_remove_witness :
  (NoteStorage_getOfflineQueue
     (NoteStorage_removeFromOfflineQueue "op-9"
        (NoteStorage_addToOfflineQueue sampleOperation emptyWorld
           initialState).1.2 initialState).1.2 initialState).1.1
  = Return [].
Proof.
  destruct (NoteStorage_queue_add_then_remove sampleOperation emptyWorld
              initialState) as [_ Hround].
  destruct (Hround eq_refl) as (queue & Hstored & _ & _ & Hback).
  injection Hstored as <-. apply Hback. constructor.
Defined.

Section Mirror.

Variable db : Repository.
Variable isoString : nat → string.
Variable randomId : nat → string.
Variable stack : nat.

(** X22: After every offline mutation that reaches the queue, the queue
    stored in localStorage under its own key (when localStorage is
    available) is exactly the queue of the store, so that
    [NoteStorage.getOfflineQueue] reads the store's queue back; an update
    of a missing id leaves the stored queue, the store's queue and the
    notes alone. No offline mutation calls the repository. *)
Theorem offline_mutation_keeps_stored_queue_in_step (m : Mutation) (w : World)
    (s : NotesState) :
  isOnline s = false →
  ∃ w' s',
    issue db isoString randomId stack m w s = (Return tt, w', s') ∧
    (enqueues s m = true → ls_available (w_storage w) = true →
     ls_offline_queue (w_storage w') = Some (offlineQueue s') ∧
     (NoteStorage_getOfflineQueue w' s').1.1 = Return (offlineQueue s')) ∧
    (enqueues s m = false →
     ls_offline_queue (w_storage w') = ls_offline_queue (w_storage w) ∧
     notes s' = notes s ∧ offlineQueue s' = offlineQueue s) ∧
    w_calls w' = w_calls w.
Proof.
  intros Hoff. unfold NoteStorage_getOfflineQueue.
  destruct m as [input|input|id]; unfold issue, enqueues.
  - unfold createNote, buildNoteTree, addToOfflineQueue, NoteStorage_setNotes,
      NoteStorage_setOfflineQueue.
    monad_unfold. simpl. rewrite Hoff. simpl.
    destruct (buildTree _ _); simpl; eexists _, _;
      (split; [reflexivity|]); simpl;
      destruct (ls_available (w_storage w)) eqn:Havailable; simpl;
      rewrite ?Havailable; simpl;
      split_and!; intros; try done; try (by split_and!).
  - destruct (findNote (upd_id input) (notes s)) as [[index n]|] eqn:Hfind.
    + unfold bind at 1.
      rewrite (updateNote_offline_found db isoString randomId input w s
                 index n Hoff Hfind).
      eexists _, _. split; [reflexivity|]. simpl.
      destruct (ls_available (w_storage w)) eqn:Havailable; simpl;
        rewrite ?Havailable; simpl;
        split_and!; intros; try done; try (by split_and!).
    + unfold bind at 1.
      rewrite (updateNote_offline_missing db isoString randomId input w s
                 Hoff Hfind).
      eexists _, _. split; [reflexivity|]. simpl.
      split_and!; intros; try done; try (by split_and!).
  - unfold deleteNote, buildNoteTree, addToOfflineQueue, NoteStorage_setNotes,
      NoteStorage_setOfflineQueue.
    monad_unfold. simpl. rewrite Hoff. simpl.
    destruct (decide (selectedNoteId s = Some id)); simpl;
      destruct (buildTree _ _); simpl; eexists _, _;
      (split; [reflexivity|]); simpl;
      destruct (ls_available (w_storage w)) eqn:Havailable; simpl;
        rewrite ?Havailable; simpl;
        split_and!; intros; try done; try (by split_and!).
Qed.

End Mirror.

(** ** The properties above at work on sample stores *)

Lemma updateNote_keeps_collection_shape_witness :
  ∃ r w' s',
    updateNote stubRepository sampleClock sampleId (renamed "n2" "Renamed")
      emptyWorld chainState = (Return r, w', s') ∧
    length (notes s') = 3%nat ∧
    note_id <$> notes s' = ["n1"; "n2"; "n3"].
Proof.
  destruct (updateNote_keeps_collection_shape stubRepository sampleClock
              sampleId (renamed "n2" "Renamed") emptyWorld chainState)
    as (r & w' & s' & Hrun & Hlen & _ & _ & Hoffline).
  destruct (Hoffline eq_refl) as (Hids & _).
  by exists r, w', s'.
Defined.

Lemma archiveNote_then_unarchiveNote_offline_witness :
  ∃ w1 s1 w2 s2,
    archiveNote stubRepository sampleClock sampleId "n2" emptyWorld chainState
    = (Return true, w1, s1) ∧
    note_is_archived <$> notes s1 = [false; true; false] ∧
    unarchiveNote stubRepository sampleClock sampleId "n2" w1 s1
    = (Return true, w2, s2) ∧
    note_is_archived <$> notes s2 = [false; false; false].
Proof.
  destruct (archiveNote_then_unarchiveNote_offline stubRepository sampleClock
              sampleId "n2" emptyWorld chainState eq_refl) as [Hfound _].
  destruct (Hfound 1%nat note2 eq_refl)
    as (w1 & s1 & w2 & s2 & Hrun1 & Hflags1 & Hrun2 & Hflags2 & _).
  by exists w1, s1, w2, s2.
Defined.

Lemma toggleFavorite_twice_offline_witness :
  ∃ w1 s1 w2 s2,
    toggleFavorite stubRepository sampleClock sampleId "n3" emptyWorld chainState
    = (Return true, w1, s1) ∧
    note_is_favorite <$> notes s1 = [false; false; true] ∧
    toggleFavorite stubRepository sampleClock sampleId "n3" w1 s1
    = (Return true, w2, s2) ∧
    note_is_favorite <$> notes s2 = [false; false; false].
Proof.
  destruct (toggleFavorite_twice_offline stubRepository sampleClock sampleId
              "n3" emptyWorld chainState eq_refl) as [Hfound _].
  destruct (Hfound 2%nat note3 eq_refl)
    as (w1 & s1 & w2 & s2 & Hrun1 & Hflags1 & Hrun2 & Hflags2).
  by exists w1, s1, w2, s2.
Defined.

Lemma addTag_then_removeTag_offline_witness :
  addTag stubRepository sampleClock sampleId "t1" "a" emptyWorld taggedState
  = (Return false, emptyWorld, taggedState) ∧
  ∃ w1 s1 w2 s2,
    addTag stubRepository sampleClock sampleId "t1" "b" emptyWorld taggedState
    = (Return true, w1, s1) ∧
    note_tags <$> notes s1 = [["a"; "b"]] ∧
    removeTag stubRepository sampleClock sampleId "t1" "b" w1 s1
    = (Return true, w2, s2) ∧
    note_tags <$> notes s2 = [["a"]].
Proof.
  destruct (addTag_then_removeTag_offline stubRepository sampleClock sampleId
              "t1" "a" emptyWorld taggedState) as [Hrefuse _].
  destruct (addTag_then_removeTag_offline stubRepository sampleClock sampleId
              "t1" "b" emptyWorld taggedState) as [_ Hround].
  split.
  - apply Hrefuse. right. eexists 0%nat, _. split; [reflexivity|].
    apply list_elem_of_here.
  - destruct (Hround eq_refl 0%nat _ eq_refl)
      as (w1 & s1 & w2 & s2 & Hrun1 & Htags1 & _ & Hrun2 & Htags2).
    { simpl. by intros [=]%list_elem_of_singleton. }
    by exists w1, s1, w2, s2.
Defined.

Lemma rejected_online_mutation_is_dropped_witness :
  ∃ w' s',
    createNote unreachableRepository sampleClock sampleId 4 (titled "N1" None)
      emptyWorld initialState = (Return None, w', s') ∧
    notes s' = [] ∧ offlineQueue s' = [] ∧
    error s' = Some "Failed to fetch".
Proof.
  destruct (rejected_online_mutation_is_dropped unreachableRepository
              sampleClock sampleId 4 emptyWorld initialState
              (ErrorObj "Failed to fetch") eq_refl) as (Hcreate & _).
  destruct (Hcreate (titled "N1" None) eq_refl)
    as (w' & s' & Hrun & Hnotes & Hqueue & _ & _ & Herror & _).
  by exists w', s'.
Defined.

Lemma missing_note_is_not_reported_offline_witness :
  ∃ w' s',
    moveNote stubRepository sampleClock sampleId 4 "nowhere" (Some "n1") 0
      emptyWorld chainState = (Return true, w', s') ∧
    notes s' = notes chainState ∧ error s' = Some "Note not found".
Proof.
  destruct (missing_note_is_not_reported_offline stubRepository sampleClock
              sampleId 4 "nowhere" emptyWorld chainState eq_refl eq_refl)
    as [Hmove _].
  destruct (Hmove (Some "n1") 0) as (w' & s' & Hrun & Hnotes & _ & Herror).
  by exists w', s'.
Defined.

Lemma successful_actions_leave_tree_in_step_witness :
  buildTree 4
    (notes (createNote stubRepository sampleClock sampleId 4
              (titled "N4" (Some "n3")) emptyWorld chainState).2)
  = Some
      (noteTree (createNote stubRepository sampleClock sampleId 4
                   (titled "N4" (Some "n3")) emptyWorld chainState).2) ∧
  length
    (notes (createNote stubRepository sampleClock sampleId 4
              (titled "N4" (Some "n3")) emptyWorld chainState).2) = 4%nat.
Proof.
  pose proof (successful_actions_leave_tree_in_step stubRepository sampleClock
                sampleId 4 emptyWorld
                (createNote stubRepository sampleClock sampleId 4
                   (titled "N4" (Some "n3")) emptyWorld chainState).1.2
                chainState
                (createNote stubRepository sampleClock sampleId 4
                   (titled "N4" (Some "n3")) emptyWorld chainState).2)
    as [Hcreate _].
  destruct (Hcreate (titled "N4" (Some "n3")) _ eq_refl)
    as (Htree & Hnotes & _).
  split; [exact Htree|]. by rewrite Hnotes.
Defined.

Lemma duplicateNote_copies_content_not_flags_witness :
  ∃ r w' s' copy,
    duplicateNote stubRepository sampleClock sampleId 4 "n3" emptyWorld
      chainState = (Return r, w', s') ∧
    notes s' = [note1; note2; note3; copy] ∧
    note_title copy = "N3 (Copy)" ∧ note_parent_id copy = Some "n2" ∧
    note_position copy = 0.
Proof.
  destruct (duplicateNote_copies_content_not_flags stubRepository sampleClock
              sampleId 4 "n3" emptyWorld chainState) as [_ Hcopy].
  destruct (Hcopy eq_refl 2%nat note3 eq_refl)
    as (r & w' & s' & copy & Hrun & Hnotes & _ & _ & Htitle & _ & _ & _ &
        Hparent & Hposition & _).
  by exists r, w', s', copy.
Defined.

Lemma fetchNotes_settles_without_throwing_witness :
  ∃ w' s',
    fetchNotes unreachableRepository sampleClock 4 empty_filter emptyWorld
      chainState = (Return tt, w', s') ∧
    loading s' = false ∧ w_calls w' = [] ∧
    selectedNoteId s' = Some "n2" ∧
    ∃ w'' s'',
      fetchNotes unreachableRepository sampleClock 4 empty_filter emptyWorld
        initialState = (Return tt, w'', s'') ∧
      error s'' = Some "Failed to fetch" ∧
      w_calls w'' = [CallGetAll empty_filter].
Proof.
  destruct (fetchNotes_settles_without_throwing unreachableRepository
              sampleClock 4 empty_filter emptyWorld chainState)
    as (w' & s' & Hrun & Hloading & _ & Hselected & Hcalls & _).
  destruct (fetchNotes_settles_without_throwing unreachableRepository
              sampleClock 4 empty_filter emptyWorld initialState)
    as (w'' & s'' & Hrun' & _ & _ & _ & Hcalls' & Honline).
  destruct (Honline eq_refl) as [_ Hrejected].
  destruct (Hrejected (ErrorObj "Failed to fetch") eq_refl) as (Herror & _).
  exists w', s'. split_and!; [done..|]. by exists w'', s''.
Defined.

Lemma syncWithCloud_always_ends_synced_witness :
  ∃ w' s',
    syncWithCloud unreachableRepository sampleClock 4 emptyWorld
      (set_offlineQueue threeOperations initialState) = (Return tt, w', s') ∧
    syncStatus s' = synced ∧ offlineQueue s' = [] ∧
    length (w_calls w') = 4%nat.
Proof.
  destruct (syncWithCloud_always_ends_synced unreachableRepository sampleClock
              4 emptyWorld (set_offlineQueue threeOperations initialState))
    as [_ Honline].
  destruct (Honline eq_refl)
    as (w' & s' & Hrun & Hstatus & Hqueue & _ & _ & Hcalls).
  exists w', s'. split_and!; [done..|]. by rewrite Hcalls.
Defined.

Lemma syncFrom_drains_only_what_its_render_saw_witness :
  (∃ h' w' s',
     syncFrom stubRepository sampleClock 4 true threeOperations initialHook
       emptyWorld (set_offlineQueue threeOperations initialState)
     = (Return h', w', s') ∧
     syncStatus s' = synced ∧ offlineQueue s' = [] ∧
     length (w_calls w') = 5%nat) ∧
  (∃ h' w' s',
     syncFrom stubRepository sampleClock 4 true [] initialHook
       emptyWorld (set_offlineQueue threeOperations initialState)
     = (Return h', w', s') ∧
     syncStatus s' = synced ∧ offlineQueue s' = threeOperations ∧
     w_calls w' = [CallCheckConnection; CallGetAll empty_filter]).
Proof.
  split.
  - destruct (syncFrom_drains_only_what_its_render_saw stubRepository
                sampleClock 4 threeOperations initialHook emptyWorld
                (set_offlineQueue threeOperations initialState))
      as [_ Hconnected].
    destruct (Hconnected eq_refl)
      as (h' & w' & s' & Hrun & _ & _ & _ & Hstatus & Hseen & _).
    destruct Hseen as [Hqueue Hcalls]; [done|].
    exists h', w', s'. split_and!; [done..|]. by rewrite Hcalls.
  - destruct (syncFrom_drains_only_what_its_render_saw stubRepository
                sampleClock 4 [] initialHook emptyWorld
                (set_offlineQueue threeOperations initialState))
      as [_ Hconnected].
    destruct (Hconnected eq_refl)
      as (h' & w' & s' & Hrun & _ & _ & _ & Hstatus & _ & Hstale).
    destruct (Hstale eq_refl) as [Hqueue Hcalls].
    by exists h', w', s'.
Defined.

Lemma hook_retry_counter_stays_bounded_witness :
  ∃ h' w' s',
    resetSync initialHook emptyWorld
      (set_offlineQueue threeOperations initialState) = (Return h', w', s') ∧
    retryCountRef h' = 0%nat ∧ offlineQueue s' = [] ∧ w_calls w' = [].
Proof.
  destruct (hook_retry_counter_stays_bounded unreachableRepository sampleClock
              4 initialHook emptyWorld
              (set_offlineQueue threeOperations initialState))
    as [_ Hreset]; [unfold RETRY_ATTEMPTS; simpl; lia|].
  destruct Hreset as (h' & w' & s' & Hrun & Hcount & _ & _ & Hqueue & _ & Hcalls).
  by exists h', w', s'.
Defined.

Lemma canMoveNote_allows_exactly_the_safe_targets_witness :
  canMoveNote 3 [note1; note2; note3] "n1" None = Some true.
Proof.
  destruct (canMoveNote_allows_exactly_the_safe_targets [note1; note2; note3]
              chainRank 3 3 "n1" None chain_is_acyclic)
    as (allowed & Hrun & _ & Htop); [vm_compute; lia|].
  by rewrite Hrun, Htop.
Defined.

Lemma canDeleteNote_means_leaf_in_tree_witness :
  Forall (λ node, canDeleteNote [note1; note2; note3] (tree_id node.2) = true
                  ↔ tree_children node.2 = [])
    (treeNodes (default [] (buildTree 3 [note1; note2; note3]))).
Proof.
  apply Forall_forall. intros [h t] Hnode.
  exact (proj2 (canDeleteNote_means_leaf_in_tree [note1; note2; note3] 3%nat
                  _ h t eq_refl Hnode)).
Defined.

Lemma getNotePath_follows_parents_witness :
  ∃ path, getNotePath 3 [note1; note2; note3] "n3" = Some path ∧
          (length path ≤ 3)%nat.
Proof.
  destruct (getNotePath_follows_parents [note1; note2; note3] "n3")
    as (_ & _ & Hends).
  apply (Hends chainRank 3%nat 3%nat chain_is_acyclic). lia.
Defined.

Lemma tree_depth_stays_below_chain_bound_witness :
  Forall (λ node, (tree_depth node.2 < 3)%nat ∧ tree_path node.2 = [])
    (treeNodes (default [] (buildTree 3 [note1; note2; note3]))).
Proof.
  apply Forall_forall. intros [h t] Hnode.
  exact (tree_depth_stays_below_chain_bound [note1; note2; note3] chainRank
           3%nat 3%nat _ chain_is_acyclic eq_refl h t Hnode).
Defined.

Lemma offline_mutation_keeps_stored_queue_in_step_witness :
  ∃ w' s',
    issue stubRepository sampleClock sampleId 4 (Delete "n2") emptyWorld
      chainState = (Return tt, w', s') ∧
    length (offlineQueue s') = 1%nat ∧
    ls_offline_queue (w_storage w') = Some (offlineQueue s') ∧
    (NoteStorage_getOfflineQueue w' s').1.1 = Return (offlineQueue s').
Proof.
  destruct (offline_mutation_keeps_stored_queue_in_step stubRepository
              sampleClock sampleId 4 (Delete "n2") emptyWorld chainState
              eq_refl)
    as (w' & s' & Hrun & Hstored & _).
  destruct (Hstored eq_refl eq_refl) as [Hqueue Hread].
  exists w', s'. split_and!; [done| |done..].
  cbv in Hrun. by injection Hrun as _ <-.
Defined.

(** ** Creating offline, deleting a parent, and paths against depths *)

Section Structure.

Variable db : Repository.
Variable isoString : nat → string.
Variable randomId : nat → string.
Variable stack : nat.

(** X23: Offline, [createNote] always stores the note: the new note, 'pending'
    and at version 1, is appended to the collection and selected, and its
    create operation is queued, even in the one case where the call
    answers [null], which is a tree rebuild that overflows the stack (the
    message is then left in [error]). *)
Theorem createNote_offline_always_stores (input : CreateNoteInput) (w : World)
    (s : NotesState) :
  isOnline s = false →
  ∃ r w' s' n,
    createNote db isoString randomId stack input w s = (Return r, w', s') ∧
    notes s' = notes s ++ [n] ∧
    selectedNoteId s' = Some (note_id n) ∧
    note_id n = randomId (w_entropy w) ∧
    note_title n = cin_title input ∧
    note_sync_status n = pending ∧ note_version n = 1 ∧
    offlineQueue s'
    = offlineQueue s
      ++ [{| op_id := randomId (S (w_entropy w)); op_payload := op_create input;
             op_timestamp := isoString (S (S (S (w_clock w)))) |}] ∧
    loading s' = false ∧
    w_calls w' = w_calls w ∧
    ((r = Some n ∧ buildTree stack (notes s') = Some (noteTree s')) ∨
     (r = None ∧ buildTree stack (notes s') = None ∧
      noteTree s' = noteTree s ∧
      error s' = Some "Maximum call stack size exceeded")).
Proof.
  intros Hoff.
  unfold createNote, buildNoteTree, addToOfflineQueue, NoteStorage_setNotes,
    NoteStorage_setOfflineQueue.
  monad_unfold. simpl. rewrite Hoff. simpl.
  destruct (buildTree _ _) eqn:Htree; simpl; eexists _, _, _, _;
    (split; [reflexivity|]); simpl;
    destruct (ls_available (w_storage w)) eqn:Havailable; simpl;
    rewrite ?Havailable; simpl; rewrite Htree; split_and!; eauto.
Qed.

Lemma deleteNote_true_inv id w s w' s' :
  deleteNote db isoString randomId stack id w s = (Return true, w', s') →
  notes s' = filter (λ n, note_id n ≠ id) (notes s) ∧
  buildTree stack (notes s') = Some (noteTree s').
Proof.
  unfold deleteNote, buildNoteTree, addToOfflineQueue, NoteStorage_setNotes,
    NoteStorage_setOfflineQueue, notes_delete.
  monad_unfold. simpl.
  destruct (isOnline s); simpl.
  - destruct (db_delete db (w_calls w) id); simpl; [|done].
    destruct (decide (selectedNoteId s = Some id)); simpl;
      destruct (buildTree _ _) eqn:Htree; simpl; try done;
      intros [= <- <-]; simpl; by rewrite Htree.
  - destruct (decide (selectedNoteId s = Some id)); simpl;
      destruct (buildTree _ _) eqn:Htree; simpl; try done;
      intros [= <- <-]; simpl; by rewrite Htree.
Qed.

(** X24: [deleteNote] does not cascade. When it answers [true] for a
    non-empty id, the notes that named the deleted note as their parent are
    still in the collection, with their [parent_id] as it was, but the
    rebuilt tree has no node below that id any more: the children, and
    with them their whole subtrees, are gone from the tree. *)
Theorem deleteNote_orphans_the_children (id : string) (w w' : World)
    (s s' : NotesState) :
  deleteNote db isoString randomId stack id w s = (Return true, w', s') →
  id ≠ "" →
  (∀ c, c ∈ notes s → note_parent_id c = Some id → note_id c ≠ id →
        c ∈ notes s') ∧
  (∀ h t, (h, t) ∈ treeNodes (noteTree s') → tree_parent_id t ≠ Some id) ∧
  (∀ h t, (h, t) ∈ treeNodes (noteTree s') → tree_id t ≠ id).
Proof.
  intros Hrun Hnonempty.
  apply deleteNote_true_inv in Hrun as [Hnotes Htree].
  assert (∀ m, m ∈ notes s' → note_id m ≠ id) as Hgone.
  { intros m. rewrite Hnotes. by intros [? _]%list_elem_of_filter. }
  split_and!.
  - intros c Hc _ Hid. rewrite Hnotes. by apply list_elem_of_filter.
  - intros h t Hnode Hparent.
    destruct (tree_nodes_reachable _ _ _ _ _ Htree Hnode)
      as (m & Hreach & Hview).
    assert (note_parent_id m = Some id) as Hmp.
    { injection Hview as _ _ Heq _ _. congruence. }
    destruct Hreach as [m _ Hroot|m' m Hreach' _ Hchild].
    + rewrite Hmp in Hroot. by apply truthy_false_inv in Hroot.
    + apply reachable_elem_of in Hreach'.
      apply (Hgone m' Hreach'). congruence.
  - intros h t Hnode Hid.
    destruct (tree_nodes_reachable _ _ _ _ _ Htree Hnode)
      as (m & Hreach%reachable_elem_of & Hview).
    apply (Hgone m Hreach). injection Hview as Heq _ _ _ _. congruence.
Qed.

End Structure.

Lemma createNote_offline_always_stores_witness :
  ∃ r w' s' n,
    createNote stubRepository sampleClock sampleId 4 (titled "N4" (Some "n3"))
      emptyWorld chainState = (Return r, w', s') ∧
    notes s' = [note1; note2; note3; n] ∧ note_sync_status n = pending.
Proof.
  destruct (createNote_offline_always_stores stubRepository sampleClock
              sampleId 4 (titled "N4" (Some "n3")) emptyWorld chainState
              eq_refl)
    as (r & w' & s' & n & Hrun & Hnotes & _ & _ & _ & Hstatus & _).
  by exists r, w', s', n.
Defined.


Lemma deleteNote_orphans_the_children_witness :
  note3 ∈ notes (deleteNote stubRepository sampleClock sampleId 4 "n2"
                   emptyWorld chainState).2 ∧
  Forall (λ node, tree_id node.2 ≠ "n2" ∧ tree_parent_id node.2 ≠ Some "n2")
    (treeNodes (noteTree (deleteNote stubRepository sampleClock sampleId 4 "n2"
                            emptyWorld chainState).2)).
Proof.
  destruct (deleteNote_orphans_the_children stubRepository sampleClock
              sampleId 4 "n2" emptyWorld
              (deleteNote stubRepository sampleClock sampleId 4 "n2"
                 emptyWorld chainState).1.2
              chainState
              (deleteNote stubRepository sampleClock sampleId 4 "n2"
                 emptyWorld chainState).2 eq_refl)
    as (Hkept & Hbelow & Hself); [discriminate|].
  split.
  - apply (Hkept note3); [|reflexivity|discriminate].
    do 2 apply list_elem_of_further. apply list_elem_of_here.
  - apply Forall_forall. intros [h t] Hnode. split; eauto.
Defined.






